(** * The L2 embedding cache of FBGEMM-GPU: [CacheLibCache]

    A shallow embedding of
    [fbgemm_gpu/src/split_embeddings_cache/cachelib_cache.cpp] and the
    properties of its operations.

    The C++ class wraps an LRU allocator of an external caching library and
    tensors of an external tensor library.  The tensors are embedded
    concretely (scalar type, sizes, raw little-endian storage); the
    allocator is an interface ([LruAllocator]) with the part of its contract
    the class relies on ([LruAllocatorLaws]), and [RefLru] is an executable
    reference implementation of it.  Every method is a computation in a
    state-and-fault monad over the fields of the class. *)

From Stdlib Require Import ZArith List Lia Bool DecimalString.
From Stdlib Require String.
Import String.StringSyntax.
From Stdlib.Strings Require Import Byte.
Import ListNotations.
Local Open Scope Z_scope.
Delimit Scope string_scope with string.

(* ================================================================== *)
(** ** Outcomes of C++ code *)

(** What can go wrong while a method runs: undefined behaviour of the
    language (the first five) and exceptions raised by a library. *)
Inductive fault : Type :=
| NullDeref
| OutOfBoundsRead
| OutOfBoundsWrite
| DivisionByZero
| SignedOverflow
| AssertFailed
| Thrown (what : String.string).

Inductive outcome (A : Type) : Type :=
| Ret (a : A)
| Fault (f : fault).
Arguments Ret {A} a.
Arguments Fault {A} f.

Definition obind {A B} (o : outcome A) (k : A -> outcome B) : outcome B :=
  match o with
  | Ret a => k a
  | Fault f => Fault f
  end.

Definition of_option {A} (f : fault) (o : option A) : outcome A :=
  match o with
  | Some a => Ret a
  | None => Fault f
  end.

(* ================================================================== *)
(** ** Bytes and fixed-width integers *)

Definition byte_of_Z (z : Z) : byte :=
  match Byte.of_N (Z.to_N (z mod 256)) with
  | Some b => b
  | None => x00
  end.

Definition Z_of_byte (b : byte) : Z := Z.of_N (Byte.to_N b).

(** The [n] low-order bytes of [z], least significant first: the memory
    image of an [n]-byte two's complement integer on a little-endian
    machine. *)
Fixpoint le_bytes (n : nat) (z : Z) : list byte :=
  match n with
  | O => []
  | S n' => byte_of_Z z :: le_bytes n' (z / 256)
  end.

(** The unsigned value of a little-endian byte string. *)
Fixpoint le_value (bs : list byte) : Z :=
  match bs with
  | [] => 0
  | b :: bs' => Z_of_byte b + 256 * le_value bs'
  end.

(** Reinterpretation of an unsigned [bits]-bit value as a signed one. *)
Definition to_signed (bits : Z) (u : Z) : Z :=
  (u + 2 ^ (bits - 1)) mod 2 ^ bits - 2 ^ (bits - 1).

Definition to_int64 (z : Z) : Z := to_signed 64 z.
Definition to_uint64 (z : Z) : Z := z mod 2 ^ 64.

Definition INT_MAX : Z := 2 ^ 31 - 1.
Definition INT64_MIN : Z := - 2 ^ 63.
Definition INT64_MAX : Z := 2 ^ 63 - 1.

Definition is_int64 (z : Z) : bool := (INT64_MIN <=? z) && (z <=? INT64_MAX).

(** [folly::StringPiece(reinterpret_cast<const char*>(&key), sizeof(int64_t))] *)
Definition StringPiece (key : Z) : list byte := le_bytes 8 key.

(** [*reinterpret_cast<const int64_t*>(p)] where [p] points at [bs]. *)
Definition read_int64 (bs : list byte) : option Z :=
  if (length bs <? 8)%nat then None
  else Some (to_int64 (le_value (firstn 8 bs))).

(** Reading [len] bytes at byte offset [off] of a buffer. *)
Definition read_at (off len : Z) (s : list byte) : option (list byte) :=
  if (0 <=? off) && (0 <=? len) && (off + len <=? Z.of_nat (length s))
  then Some (firstn (Z.to_nat len) (skipn (Z.to_nat off) s))
  else None.

(** Writing the bytes [bs] at byte offset [off] of a buffer. *)
Definition write_at (off : Z) (bs : list byte) (s : list byte)
  : option (list byte) :=
  if (0 <=? off) && (off + Z.of_nat (length bs) <=? Z.of_nat (length s))
  then Some (firstn (Z.to_nat off) s ++ bs
             ++ skipn (Z.to_nat off + length bs) s)
  else None.

(** [std::memcpy(dst, src, n)] on two buffers that do not overlap. *)
Definition memcpy (dst src : list byte) (n : Z) : outcome (list byte) :=
  match read_at 0 n src with
  | None => Fault OutOfBoundsRead
  | Some bs => of_option OutOfBoundsWrite (write_at 0 bs dst)
  end.

(* ================================================================== *)
(** ** Tensors *)

(** The scalar types that occur: the three the dispatch macro accepts, the
    type of row identifiers, and two it rejects. *)
Inductive ScalarType : Type := kByte | kInt | kLong | kHalf | kFloat | kDouble.

Definition ScalarType_eqb (a b : ScalarType) : bool :=
  match a, b with
  | kByte, kByte | kInt, kInt | kLong, kLong
  | kHalf, kHalf | kFloat, kFloat | kDouble, kDouble => true
  | _, _ => false
  end.

Definition elementSize (dt : ScalarType) : Z :=
  match dt with
  | kByte => 1
  | kHalf => 2
  | kInt | kFloat => 4
  | kLong | kDouble => 8
  end.

Definition isFloatingType (dt : ScalarType) : bool :=
  match dt with
  | kHalf | kFloat | kDouble => true
  | _ => false
  end.

(** A tensor: its scalar type, its sizes and its storage as raw bytes. *)
Record Tensor : Type := {
  scalar_type : ScalarType;
  sizes : list Z;
  storage : list byte
}.

Definition numel (t : Tensor) : Z := fold_right Z.mul 1 (sizes t).
Definition nbytes (t : Tensor) : Z := numel t * elementSize (scalar_type t).

(** A tensor is well formed when its sizes are not negative and its storage
    holds exactly its elements. *)
Definition tensor_ok (t : Tensor) : bool :=
  forallb (fun d => 0 <=? d) (sizes t)
  && (Z.of_nat (length (storage t)) =? nbytes t).

(** [t.size(d)] *)
Definition size (t : Tensor) (d : nat) : outcome Z :=
  of_option (Thrown "Dimension out of range"%string) (nth_error (sizes t) d).

(** The memory image of the scalar [-1] in each scalar type: all bits set
    for the integer types (255 for the unsigned [kByte]), and the IEEE
    encoding of [-1.0] for the floating-point types. *)
Definition neg_one_bytes (dt : ScalarType) : list byte :=
  match dt with
  | kHalf => [x00; xbc]
  | kFloat => [x00; x00; x80; xbf]
  | kDouble => [x00; x00; x00; x00; x00; x00; xf0; xbf]
  | _ => le_bytes (Z.to_nat (elementSize dt)) (1 * -1)
  end.

(** [at::ones(n, dtype) * -1] *)
Definition ones_times_neg_one (n : Z) (dt : ScalarType) : outcome Tensor :=
  if n <? 0 then Fault (Thrown "negative dimension"%string)
  else Ret {| scalar_type := dt;
              sizes := [n];
              storage := concat (repeat (neg_one_bytes dt) (Z.to_nat n)) |}.

(** [at::empty({n, w}, dtype)]: the contents are whatever the fresh block
    held before, given by [junk]. *)
Definition empty (n w : Z) (dt : ScalarType) (junk : nat -> byte)
  : outcome Tensor :=
  if (n <? 0) || (w <? 0) then Fault (Thrown "negative dimension"%string)
  else Ret {| scalar_type := dt;
              sizes := [n; w];
              storage := map junk (seq 0 (Z.to_nat (n * w * elementSize dt))) |}.

(** Element [i] of a tensor of 64-bit integers. *)
Definition int64_at (t : Tensor) (i : Z) : option Z :=
  match read_at (8 * i) 8 (storage t) with
  | Some bs => read_int64 bs
  | None => None
  end.

(** Row [i] of a two-dimensional tensor whose rows have [w] elements. *)
Definition row_at (t : Tensor) (w : Z) (i : Z) : option (list byte) :=
  let rb := w * elementSize (scalar_type t) in
  read_at (i * rb) rb (storage t).

(* ================================================================== *)
(** ** The allocator interface *)

(** [facebook::cachelib::RemoveContext] *)
Inductive RemoveContext : Type := kEviction | kNormal.

Definition PoolId : Type := Z.

(** A cache item: its key, the pool its memory was allocated from, and its
    memory. *)
Record Item : Type := {
  getKey : list byte;
  getPoolId : PoolId;
  getMemory : list byte
}.

(** [facebook::cachelib::LruAllocator::RemoveCbData] *)
Record RemoveCbData : Type := {
  context : RemoveContext;
  item : Item
}.

(** The operations of [facebook::cachelib::LruAllocator] that the class
    calls.  An operation that removes items reports the removals, in order:
    the allocator passes each of them to the registered remove callback.
    [peek] reads an entry without touching the recency order. *)
Class LruAllocator : Type := {
  Cache : Type;
  newCache : Z -> outcome Cache;
  ramCacheSize : Cache -> Z;
  addPool : String.string -> Z -> Cache -> outcome (PoolId * Cache);
  find : list byte -> Cache -> option Item * Cache;
  peek : list byte -> Cache -> option Item;
  allocate : PoolId -> list byte -> Z -> Cache
             -> option Item * list RemoveCbData * Cache;
  insertOrReplace : Item -> Cache -> list RemoveCbData * Cache;
  freeMemoryBytes : PoolId -> Cache -> Z
}.

(** The part of the allocator's contract that the class relies on. *)
Class LruAllocatorLaws (L : LruAllocator) : Prop := {
  find_peek : forall k c, fst (find k c) = peek k c;
  find_keeps : forall k k' c, peek k' (snd (find k c)) = peek k' c;
  allocate_none : forall p k n c evs c',
    allocate p k n c = (None, evs, c') ->
    evs = [] /\ forall k', peek k' c' = peek k' c;
  allocate_some : forall p k n c h evs c',
    allocate p k n c = (Some h, evs, c') ->
    getKey h = k /\ getPoolId h = p /\ Z.of_nat (length (getMemory h)) = n
    /\ Forall (fun d => context d = kEviction) evs;
  insert_peek : forall h c,
    peek (getKey h) (snd (insertOrReplace h c)) = Some h;
  insert_events : forall h c,
    Forall (fun d => context d = kNormal) (fst (insertOrReplace h c))
}.

(* ================================================================== *)
(** ** A reference allocator *)

Module RefLru.

Fixpoint bytes_eqb (a b : list byte) : bool :=
  match a, b with
  | [], [] => true
  | x :: a', y :: b' => Byte.eqb x y && bytes_eqb a' b'
  | _, _ => false
  end.

(** Pools are numbered from 0 and hold their size in bytes; the items are
    kept most recently used first. *)
Record t : Type := {
  ram : Z;
  pools : list Z;
  items : list Item
}.

Definition has_key (k : list byte) (it : Item) : bool :=
  bytes_eqb (getKey it) k.

Definition itemSize (it : Item) : Z := Z.of_nat (length (getMemory it)).

Definition used (p : PoolId) (c : t) : Z :=
  fold_right Z.add 0
    (map itemSize (filter (fun it => getPoolId it =? p) (items c))).

Definition poolSize (p : PoolId) (c : t) : option Z :=
  if p <? 0 then None else nth_error (pools c) (Z.to_nat p).

Definition create (size : Z) : outcome t :=
  if size <=? 0 then Fault (Thrown "invalid cache size"%string)
  else Ret {| ram := size; pools := []; items := [] |}.

Definition add_pool (name : String.string) (size : Z) (c : t)
  : outcome (PoolId * t) :=
  if ram c <? fold_right Z.add 0 (pools c) + size
  then Fault (Thrown "not enough memory for the pool"%string)
  else Ret (Z.of_nat (length (pools c)),
            {| ram := ram c; pools := pools c ++ [size]; items := items c |}).

Definition lookup (k : list byte) (c : t) : option Item :=
  List.find (has_key k) (items c).

Definition without (k : list byte) (l : list Item) : list Item :=
  filter (fun it => negb (has_key k it)) l.

Definition touch (k : list byte) (c : t) : option Item * t :=
  match lookup k c with
  | None => (None, c)
  | Some it =>
      (Some it,
       {| ram := ram c; pools := pools c;
          items := it :: without k (items c) |})
  end.

(** Evicts items of pool [p] from [l], which is given least recently used
    first, until [need] bytes have been released: the evicted items in
    eviction order, and the items that stay. *)
Fixpoint evict (p : PoolId) (need : Z) (l : list Item)
  : list Item * list Item :=
  match l with
  | [] => ([], [])
  | it :: rest =>
      if need <=? 0 then ([], l)
      else if getPoolId it =? p then
        let (ev, keep) := evict p (need - itemSize it) rest in
        (it :: ev, keep)
      else
        let (ev, keep) := evict p need rest in
        (ev, it :: keep)
  end.

Definition alloc (p : PoolId) (k : list byte) (n : Z) (c : t)
  : option Item * list RemoveCbData * t :=
  match poolSize p c with
  | None => (None, [], c)
  | Some sz =>
      if (n <? 0) || (sz <? n) then (None, [], c)
      else
        let (ev, keep) := evict p (used p c + n - sz) (rev (items c)) in
        (Some {| getKey := k; getPoolId := p;
                 getMemory := repeat x00 (Z.to_nat n) |},
         map (fun it => {| context := kEviction; item := it |}) ev,
         {| ram := ram c; pools := pools c; items := rev keep |})
  end.

Definition insert (h : Item) (c : t) : list RemoveCbData * t :=
  (match lookup (getKey h) c with
   | Some old => [{| context := kNormal; item := old |}]
   | None => []
   end,
   {| ram := ram c; pools := pools c;
      items := h :: without (getKey h) (items c) |}).

Definition free (p : PoolId) (c : t) : Z :=
  match poolSize p c with
  | Some sz => sz - used p c
  | None => 0
  end.

End RefLru.

Definition RefLruAllocator : LruAllocator := {|
  Cache := RefLru.t;
  newCache := RefLru.create;
  ramCacheSize := RefLru.ram;
  addPool := RefLru.add_pool;
  find := RefLru.touch;
  peek := RefLru.lookup;
  allocate := RefLru.alloc;
  insertOrReplace := RefLru.insert;
  freeMemoryBytes := RefLru.free
|}.

(* ================================================================== *)
(** ** The class *)

(** [CacheConfig] *)
Record CacheConfig : Type := { cacheSizeBytes : Z }.

(** [facebook::cachelib::CacheAdmin], reduced to its configuration. *)
Record CacheAdmin : Type := { oncall : String.string }.

(** Modelled from the spec: [kv_db_utils::hash_shard] is declared in
    [kv_db_cpp_utils.h], which is not among the sources; the spec describes
    the shard router as a stable hash of the key modulo the shard count.
    [hash] is that stable hash; the remainder of a division by zero is
    undefined behaviour. *)
Definition hash_shard (hash : Z -> Z) (key : Z) (num_shards : Z) : outcome Z :=
  if num_shards =? 0 then Fault DivisionByZero
  else Ret (to_uint64 (hash key) mod num_shards).

(** Modelled from the spec: [FBGEMM_DISPATCH_FLOAT_HALF_AND_BYTE] is defined
    in [dispatch_macros.h], which is not among the sources; the spec
    describes it as a type dispatch over the element kinds float, half and
    byte.  The result is [sizeof(scalar_t)] of the selected case; any other
    scalar type raises an error. *)
Definition dispatch_float_half_and_byte (dt : ScalarType) : outcome Z :=
  match dt with
  | kFloat | kHalf | kByte => Ret (elementSize dt)
  | _ => Fault (Thrown "l2_eviction_handling not implemented"%string)
  end.

(** [fmt::format("shard_{}", i)] *)
Definition shard_name (i : Z) : String.string :=
  String.append "shard_"%string (NilZero.string_of_int (Z.to_int i)).

(** What the sources leave open: the stable hash behind
    [kv_db_utils::hash_shard]; the conversion of a floating-point element
    to [long] by the tensor library; and the values that the member
    declarations of [cachelib_cache.h], which is not among the sources,
    give the three capture members before the body of the constructor
    runs, which assigns none of them. *)
Class Externals : Type := {
  key_hash : Z -> Z;
  float_to_long : ScalarType -> list byte -> outcome Z;
  declared_evicted_indices_ptr_ : option Tensor;
  declared_evicted_weights_ptr_ : option Tensor;
  declared_eviction_row_id : Z
}.

Section CacheLibCache.

Context {L : LruAllocator} {X : Externals}.

(** Modelled from the spec: the members of the class are declared in
    [cachelib_cache.h], which is not among the sources.  The fields are the
    members that the methods use; an empty [std::shared_ptr] is [None]; the
    cursor [eviction_row_id], which the spec describes as a shared atomic
    counter, is taken to be a signed 64-bit one, like the tensor indices it
    is used as. *)
Record CacheLibCache : Type := {
  cache_config_ : CacheConfig;
  cache_ : Cache;
  admin_ : CacheAdmin;
  pool_ids_ : list PoolId;
  evicted_indices_ptr_ : option Tensor;
  evicted_weights_ptr_ : option Tensor;
  eviction_row_id : Z
}.

Definition with_cache (c : Cache) (st : CacheLibCache) : CacheLibCache :=
  {| cache_config_ := cache_config_ st; cache_ := c; admin_ := admin_ st;
     pool_ids_ := pool_ids_ st;
     evicted_indices_ptr_ := evicted_indices_ptr_ st;
     evicted_weights_ptr_ := evicted_weights_ptr_ st;
     eviction_row_id := eviction_row_id st |}.

Definition with_indices (p : option Tensor) (st : CacheLibCache)
  : CacheLibCache :=
  {| cache_config_ := cache_config_ st; cache_ := cache_ st;
     admin_ := admin_ st; pool_ids_ := pool_ids_ st;
     evicted_indices_ptr_ := p;
     evicted_weights_ptr_ := evicted_weights_ptr_ st;
     eviction_row_id := eviction_row_id st |}.

Definition with_weights (p : option Tensor) (st : CacheLibCache)
  : CacheLibCache :=
  {| cache_config_ := cache_config_ st; cache_ := cache_ st;
     admin_ := admin_ st; pool_ids_ := pool_ids_ st;
     evicted_indices_ptr_ := evicted_indices_ptr_ st;
     evicted_weights_ptr_ := p;
     eviction_row_id := eviction_row_id st |}.

Definition with_row_id (r : Z) (st : CacheLibCache) : CacheLibCache :=
  {| cache_config_ := cache_config_ st; cache_ := cache_ st;
     admin_ := admin_ st; pool_ids_ := pool_ids_ st;
     evicted_indices_ptr_ := evicted_indices_ptr_ st;
     evicted_weights_ptr_ := evicted_weights_ptr_ st;
     eviction_row_id := r |}.

(** *** The monad of methods *)

Definition M (A : Type) : Type := CacheLibCache -> outcome (A * CacheLibCache).

Definition ret {A} (a : A) : M A := fun st => Ret (a, st).

Definition bind {A B} (m : M A) (k : A -> M B) : M B :=
  fun st =>
    match m st with
    | Ret (a, st') => k a st'
    | Fault f => Fault f
    end.

Definition lift {A} (o : outcome A) : M A :=
  fun st => match o with Ret a => Ret (a, st) | Fault f => Fault f end.

Definition gets {A} (f : CacheLibCache -> A) : M A := fun st => Ret (f st, st).

Definition modify (f : CacheLibCache -> CacheLibCache) : M unit :=
  fun st => Ret (tt, f st).

(** [*p] for a shared pointer [p]. *)
Definition deref (p : CacheLibCache -> option Tensor) : M Tensor :=
  fun st => match p st with
            | Some t => Ret (t, st)
            | None => Fault NullDeref
            end.

Notation "x <- m ;; k" := (bind m (fun x => k))
  (at level 61, m at next level, right associativity).
Notation "m ;;; k" := (bind m (fun _ => k))
  (at level 61, right associativity).

(** [t.data_ptr<int64_t>()] checks the scalar type of [t]. *)
Definition data_ptr_int64 (t : Tensor) : outcome unit :=
  if ScalarType_eqb (scalar_type t) kLong then Ret tt
  else Fault (Thrown "expected scalar type Long"%string).

(** [eviction_row_id++] on the atomic counter. *)
Definition fetch_add_eviction_row_id : M Z :=
  fun st =>
    Ret (eviction_row_id st,
         with_row_id (to_int64 (eviction_row_id st + 1)) st).

(** Stores through the data pointers of the two capture buffers. *)
Definition store_indices (off : Z) (bs : list byte) : M unit :=
  t <- deref evicted_indices_ptr_ ;;
  s <- lift (of_option OutOfBoundsWrite (write_at off bs (storage t))) ;;
  modify (with_indices
            (Some {| scalar_type := scalar_type t; sizes := sizes t;
                     storage := s |})).

Definition store_weights (off : Z) (bs : list byte) : M unit :=
  t <- deref evicted_weights_ptr_ ;;
  s <- lift (of_option OutOfBoundsWrite (write_at off bs (storage t))) ;;
  modify (with_weights
            (Some {| scalar_type := scalar_type t; sizes := sizes t;
                     storage := s |})).

(** *** The remove callback registered in [initializeCacheLib] *)

Definition eviction_cb (data : RemoveCbData) : M unit :=
  weights <- deref evicted_weights_ptr_ ;;
  sizeof_scalar_t <- lift (dispatch_float_half_and_byte (scalar_type weights)) ;;
  match context data with
  | kEviction =>
      indices <- deref evicted_indices_ptr_ ;;
      lift (data_ptr_int64 indices) ;;;
      row_id <- fetch_add_eviction_row_id ;;
      weight_dim <- lift (size weights 1) ;;
      key <- lift (of_option OutOfBoundsRead
                     (read_int64 (getKey (item data)))) ;;
      store_indices (8 * row_id) (le_bytes 8 key) ;;;
      row <- lift (of_option OutOfBoundsRead
                     (read_at 0 (weight_dim * sizeof_scalar_t)
                        (getMemory (item data)))) ;;
      store_weights (row_id * weight_dim * sizeof_scalar_t) row
  | kNormal => ret tt
  end.

(** The allocator calls the callback once for every removal, in order. *)
Fixpoint notify (evs : list RemoveCbData) : M unit :=
  match evs with
  | [] => ret tt
  | data :: rest => eviction_cb data ;;; notify rest
  end.

(** *** Calls into the allocator *)

Definition cache_find (key_str : list byte) : M (option Item) :=
  fun st =>
    let (r, c) := find key_str (cache_ st) in
    Ret (r, with_cache c st).

Definition cache_allocate (pid : PoolId) (key_str : list byte) (n : Z)
  : M (option Item) :=
  fun st =>
    let '(r, evs, c) := allocate pid key_str n (cache_ st) in
    (notify evs ;;; ret r) (with_cache c st).

Definition cache_insertOrReplace (h : Item) : M unit :=
  fun st =>
    let (evs, c) := insertOrReplace h (cache_ st) in
    notify evs (with_cache c st).

(** *** Construction *)

Definition initializeCacheLib (config : CacheConfig) : outcome Cache :=
  newCache (to_uint64 (cacheSizeBytes config)).

Definition createCacheAdmin (cache : Cache) : CacheAdmin :=
  {| oncall := "mvai"%string |}.

(** The body of the constructor's loop, for the indices [range]. *)
Fixpoint add_pools (range : list Z) (num_shards : Z)
         (acc : Cache * list PoolId) : outcome (Cache * list PoolId) :=
  match range with
  | [] => Ret acc
  | i :: rest =>
      obind (addPool (shard_name i)
               (to_uint64 (ramCacheSize (fst acc)) / to_uint64 num_shards)
               (fst acc))
        (fun r => add_pools rest num_shards (snd r, snd acc ++ [fst r]))
  end.

(** [CacheLibCache::CacheLibCache].  The capacity is a [size_t]; the loop
    counter is an [int]: its increment overflows when [num_shards] exceeds
    [INT_MAX].  The body assigns [pool_ids_] only: the three capture
    members keep what their declarations give them. *)
Definition new_CacheLibCache (cacheSizeBytes num_shards : Z)
  : outcome CacheLibCache :=
  let cache_config := {| cacheSizeBytes := to_uint64 cacheSizeBytes |} in
  obind (initializeCacheLib cache_config) (fun cache =>
  let admin := createCacheAdmin cache in
  obind (add_pools (map Z.of_nat (seq 0 (Z.to_nat (Z.min num_shards (INT_MAX + 1)))))
           num_shards (cache, []))
    (fun r =>
       if INT_MAX <? num_shards then Fault SignedOverflow
       else Ret {| cache_config_ := cache_config;
                   cache_ := fst r;
                   admin_ := admin;
                   pool_ids_ := snd r;
                   evicted_indices_ptr_ := declared_evicted_indices_ptr_;
                   evicted_weights_ptr_ := declared_evicted_weights_ptr_;
                   eviction_row_id := declared_eviction_row_id |})).

(** *** The methods *)

(** [CacheLibCache::get]: the result is the memory behind the returned
    pointer. *)
Definition get (key : Z) : M (option (list byte)) :=
  let key_str := StringPiece key in
  item <- cache_find key_str ;;
  match item with
  | None => ret None
  | Some it => ret (Some (getMemory it))
  end.

(** [CacheLibCache::get_shard_id] *)
Definition get_shard_id (key : Z) : M Z :=
  n <- gets (fun st => Z.of_nat (length (pool_ids_ st))) ;;
  lift (hash_shard key_hash key n).

(** [CacheLibCache::get_pool_id]: [operator[]] of the vector is unchecked. *)
Definition get_pool_id (key : Z) : M PoolId :=
  i <- get_shard_id key ;;
  ids <- gets pool_ids_ ;;
  lift (of_option OutOfBoundsRead (nth_error ids (Z.to_nat i))).

(** The part of [put] that follows the choice of the pool. *)
Definition put_in_pool (pid : PoolId) (key : Z) (data : Tensor) : M bool :=
  let key_str := StringPiece key in
  item <- cache_allocate pid key_str (nbytes data) ;;
  match item with
  | None => ret false
  | Some it =>
      mem <- lift (memcpy (getMemory it) (storage data) (nbytes data)) ;;
      cache_insertOrReplace
        {| getKey := getKey it; getPoolId := getPoolId it;
           getMemory := mem |} ;;;
      ret true
  end.

(** [CacheLibCache::put] *)
Definition put (key : Z) (data : Tensor) : M bool :=
  pid <- get_pool_id key ;;
  put_in_pool pid key data.

(** [count.item<long>()] *)
Definition item_long (count : Tensor) : outcome Z :=
  if negb (numel count =? 1)
  then Fault (Thrown "only one element tensors can be converted"%string)
  else
    obind (of_option OutOfBoundsRead
             (read_at 0 (elementSize (scalar_type count)) (storage count)))
      (fun bs =>
         match scalar_type count with
         | kByte => Ret (le_value bs)
         | kInt => Ret (to_signed 32 (le_value bs))
         | kLong => Ret (to_signed 64 (le_value bs))
         | dt => obind (float_to_long dt bs) (fun z => Ret (to_int64 z))
         end).

(** [CacheLibCache::init_tensor_for_l2_eviction]; [junk] is what the
    uninitialised weights buffer happens to hold. *)
Definition init_tensor_for_l2_eviction
           (indices weights count : Tensor) (junk : nat -> byte) : M unit :=
  num_lookups <- lift (item_long count) ;;
  evicted_indices <-
    lift (ones_times_neg_one num_lookups (scalar_type indices)) ;;
  modify (with_indices (Some evicted_indices)) ;;;
  weight_dim <- lift (size weights 1) ;;
  evicted_weights <-
    lift (empty num_lookups weight_dim (scalar_type weights) junk) ;;
  modify (with_weights (Some evicted_weights)).

(** [CacheLibCache::reset_eviction_states] *)
Definition reset_eviction_states : M unit := modify (with_row_id 0).

(** [CacheLibCache::get_evicted_indices_and_weights] *)
Definition get_evicted_indices_and_weights : M (option (Tensor * Tensor)) :=
  p <- gets evicted_indices_ptr_ ;;
  match p with
  | Some indices =>
      q <- gets evicted_weights_ptr_ ;;
      match q with
      | Some weights => ret (Some (indices, weights))
      | None => lift (Fault AssertFailed)
      end
  | None => ret None
  end.

(** [CacheLibCache::get_cache_usage]: the two entries are [int64_t], the
    capacity and the free bytes of a pool are [size_t]. *)
Definition get_cache_usage : M (list Z) :=
  capacity <- gets (fun st => to_int64 (cacheSizeBytes (cache_config_ st))) ;;
  ids <- gets pool_ids_ ;;
  cache <- gets cache_ ;;
  let free :=
    fold_left
      (fun acc pool_id =>
         to_int64 (to_uint64 acc + to_uint64 (freeMemoryBytes pool_id cache)))
      ids 0 in
  ret [free; capacity].

(** *** Exceptions that the caller catches *)

(** The object as [init_tensor_for_l2_eviction] leaves it when it throws.
    The key buffer is assigned in a statement of its own before
    [weights.size(1)] and [at::empty] are evaluated: an exception of these
    two leaves the new key buffer bound, beside the weights buffer that
    was there before.  An exception of [count.item<long>()] or of
    [at::ones] leaves the object as it was. *)
Definition init_tensor_for_l2_eviction_thrown
           (indices weights count : Tensor) (junk : nat -> byte)
           (st : CacheLibCache) : option CacheLibCache :=
  match item_long count with
  | Fault (Thrown _) => Some st
  | Fault _ => None
  | Ret num_lookups =>
      match ones_times_neg_one num_lookups (scalar_type indices) with
      | Fault (Thrown _) => Some st
      | Fault _ => None
      | Ret evicted_indices =>
          match obind (size weights 1)
                  (fun weight_dim =>
                     empty num_lookups weight_dim (scalar_type weights) junk)
          with
          | Fault (Thrown _) => Some (with_indices (Some evicted_indices) st)
          | _ => None
          end
      end
  end.

(** *** Sequences of calls *)

Inductive call : Type :=
| Get (key : Z)
| Put (key : Z) (data : Tensor)
| InitTensor (indices weights count : Tensor) (junk : nat -> byte)
| ResetEvictionStates
| GetEvicted
| GetCacheUsage.

Definition perform (c : call) : M unit :=
  match c with
  | Get key => get key ;;; ret tt
  | Put key data => put key data ;;; ret tt
  | InitTensor indices weights count junk =>
      init_tensor_for_l2_eviction indices weights count junk
  | ResetEvictionStates => reset_eviction_states
  | GetEvicted => get_evicted_indices_and_weights ;;; ret tt
  | GetCacheUsage => get_cache_usage ;;; ret tt
  end.

(** The object that the caller holds after it has caught the exception of
    a call, where the sources tell: [init_tensor_for_l2_eviction] is the
    one method that throws between assignments of its own.  Every other
    exception comes out of the remove callback and so passes through the
    allocator, which calls it from inside an allocation or an insertion:
    what the allocator holds after that, the sources do not tell. *)
Definition caught (c : call) (st : CacheLibCache) : option CacheLibCache :=
  match c with
  | InitTensor indices weights count junk =>
      init_tensor_for_l2_eviction_thrown indices weights count junk st
  | _ => None
  end.

(** A sequence of calls by a caller that catches exceptions.  A call that
    returns hands its object to the next call, and so does a call that
    throws, with the object as the exception has left it.  Undefined
    behaviour, a failed assertion and an exception that has passed through
    the allocator end the sequence. *)
Fixpoint run (cs : list call) : M unit :=
  match cs with
  | [] => ret tt
  | c :: rest =>
      fun st =>
        match perform c st with
        | Ret (_, st') => run rest st'
        | Fault f =>
            match caught c st with
            | Some st' => run rest st'
            | None => Fault f
            end
        end
  end.

(** *** Predicates on states *)

(** The evictions among a sequence of removals, in order. *)
Definition evictions (evs : list RemoveCbData) : list Item :=
  map item (filter (fun d => match context d with
                             | kEviction => true
                             | kNormal => false
                             end) evs).

(** Capture buffers of [m] rows of [w] elements are bound: a key buffer
    of [m] elements and a weights buffer of [m] rows, each backed by
    storage of its size; [m] is a [long]. *)
Definition buffers_bound (m w : Z) (st : CacheLibCache) : Prop :=
  match evicted_indices_ptr_ st, evicted_weights_ptr_ st with
  | Some indices, Some weights =>
      sizes indices = [m] /\
      Z.of_nat (length (storage indices))
      = m * elementSize (scalar_type indices) /\
      sizes weights = [m; w] /\
      Z.of_nat (length (storage weights))
      = m * w * elementSize (scalar_type weights) /\
      0 <= m <= INT64_MAX /\ 0 <= w
  | _, _ => False
  end.

(** The bound buffers have the scalar types the callback expects: keys
    are 64-bit integers, and the dispatch accepts the scalar type of the
    weights, whose elements take [esz] bytes. *)
Definition capture_types (esz : Z) (st : CacheLibCache) : Prop :=
  match evicted_indices_ptr_ st, evicted_weights_ptr_ st with
  | Some indices, Some weights =>
      scalar_type indices = kLong /\
      dispatch_float_half_and_byte (scalar_type weights) = Ret esz
  | _, _ => False
  end.

(** The captured key in slot [i] and the captured row in slot [i]. *)
Definition captured_key (st : CacheLibCache) (i : Z) : option Z :=
  match evicted_indices_ptr_ st with
  | Some t => int64_at t i
  | None => None
  end.

Definition captured_row (st : CacheLibCache) (i : Z) : option (list byte) :=
  match evicted_weights_ptr_ st with
  | Some t =>
      match sizes t with
      | [_; w] => row_at t w i
      | _ => None
      end
  | None => None
  end.

(** The state after one capture that stored [indices'] and [weights']. *)
Definition captured_state (st : CacheLibCache) (indices' weights' : Tensor)
  : CacheLibCache :=
  {| cache_config_ := cache_config_ st; cache_ := cache_ st;
     admin_ := admin_ st; pool_ids_ := pool_ids_ st;
     evicted_indices_ptr_ := Some indices';
     evicted_weights_ptr_ := Some weights';
     eviction_row_id := to_int64 (eviction_row_id st + 1) |}.

Definition with_storage (t : Tensor) (s : list byte) : Tensor :=
  {| scalar_type := scalar_type t; sizes := sizes t; storage := s |}.

(** The entry that [put] inserts for a key and a row in a pool. *)
Definition row_entry (key : Z) (pid : PoolId) (data : Tensor) : Item :=
  {| getKey := StringPiece key; getPoolId := pid; getMemory := storage data |}.

(** An evicted item has at least the eight bytes of a key and the [w]
    elements of [esz] bytes of a row. *)
Definition wide_item (w esz : Z) (it : Item) : Prop :=
  (8 <= length (getKey it))%nat /\
  w * esz <= Z.of_nat (length (getMemory it)).

(** An evicted item is a row of [w] elements of [esz] bytes under an
    8-byte key. *)
Definition row_item (w esz : Z) (it : Item) : Prop :=
  length (getKey it) = 8%nat /\
  Z.of_nat (length (getMemory it)) = w * esz.

(** Whether a sequence of calls binds capture buffers. *)
Definition binds_buffers (cs : list call) : bool :=
  existsb (fun c => match c with
                    | InitTensor _ _ _ _ => true
                    | _ => false
                    end) cs.

(** The free bytes of the pools [ids], added up. *)
Definition sum_free (c : Cache) (ids : list PoolId) : Z :=
  fold_right Z.add 0 (map (fun p => freeMemoryBytes p c) ids).

(** Two states with the same allocator, pools and configuration. *)
Definition same_cache (st st' : CacheLibCache) : Prop :=
  cache_ st' = cache_ st /\ pool_ids_ st' = pool_ids_ st /\
  cache_config_ st' = cache_config_ st.

End CacheLibCache.

Notation "x <- m ;; k" := (bind m (fun x => k))
  (at level 61, m at next level, right associativity).
Notation "m ;;; k" := (bind m (fun _ => k))
  (at level 61, right associativity).

(* ================================================================== *)
(** ** Examples *)

Module Example.

Definition externals : Externals := {|
  key_hash := fun key => key;
  float_to_long := fun _ _ => Fault (Thrown "not a whole number"%string);
  declared_evicted_indices_ptr_ := None;
  declared_evicted_weights_ptr_ := None;
  declared_eviction_row_id := 0
|}.

(** A cache of 16 bytes in two shards, as the constructor builds it on
    the reference allocator. *)
Definition fresh : @CacheLibCache RefLruAllocator := {|
  cache_config_ := {| cacheSizeBytes := 16 |};
  cache_ := ({| RefLru.ram := 16; RefLru.pools := [8; 8];
               RefLru.items := [] |} : @Cache RefLruAllocator);
  admin_ := {| oncall := "mvai"%string |};
  pool_ids_ := [0; 1];
  evicted_indices_ptr_ := None;
  evicted_weights_ptr_ := None;
  eviction_row_id := 0
|}.

(** The state a computation ends in, or the state it started from when it
    faults. *)
Definition exec {A} (m : @M RefLruAllocator A) (st : CacheLibCache)
  : CacheLibCache :=
  match m st with
  | Ret (_, st') => st'
  | Fault _ => st
  end.

(** A row of four bytes, and a row of sixteen that fits no shard. *)
Definition row (b : byte) : Tensor :=
  {| scalar_type := kByte; sizes := [1; 4]; storage := [b; b; b; b] |}.

Definition wide_row : Tensor :=
  {| scalar_type := kByte; sizes := [1; 16]; storage := repeat x07 16 |}.

Definition some_keys : Tensor :=
  {| scalar_type := kLong; sizes := [1]; storage := le_bytes 8 0 |}.

Definition count_of (n : Z) : Tensor :=
  {| scalar_type := kLong; sizes := [1]; storage := le_bytes 8 n |}.

Definition junk (i : nat) : byte := xaa.

(** A cycle for three lookups has been set up on the fresh cache. *)
Definition ready : CacheLibCache :=
  exec (@bind RefLruAllocator _ _ reset_eviction_states
          (fun _ => @init_tensor_for_l2_eviction RefLruAllocator externals
                      some_keys (row x00) (count_of 3) junk))
       fresh.

(** Two rows are cached in shard 0, which is then full. *)
Definition full : CacheLibCache :=
  exec (@bind RefLruAllocator _ _ (@put RefLruAllocator externals 0 (row x01))
          (fun _ => @put RefLruAllocator externals 2 (row x02)))
       ready.

Definition entry (key : Z) (b : byte) : Item :=
  {| getKey := StringPiece key; getPoolId := 0; getMemory := [b; b; b; b] |}.

(** Removals as the allocator reports them: an eviction, a replacement,
    an eviction. *)
Definition removals : list RemoveCbData :=
  [ {| context := kEviction; item := entry 7 x01 |};
    {| context := kNormal; item := entry 8 x02 |};
    {| context := kEviction; item := entry 9 x03 |} ].

(** One row is cached in shard 0, which has room for another. *)
Definition one : CacheLibCache :=
  exec (@put RefLruAllocator externals 0 (row x01)) ready.

(** A first cycle has captured two evictions: the cursor is at 2. *)
Definition used : CacheLibCache :=
  exec (@notify RefLruAllocator removals) ready.

(** More evictions than the three rows of the buffers. *)
Definition flood : list RemoveCbData :=
  map (fun k => {| context := kEviction; item := entry k x06 |}) [1; 2; 3; 4].

(** An entry of six bytes, and one of two, where rows have four. *)
Definition long_entry : Item :=
  {| getKey := StringPiece 5; getPoolId := 0;
     getMemory := [x01; x02; x03; x04; x05; x06] |}.

Definition short_entry : Item :=
  {| getKey := StringPiece 5; getPoolId := 0; getMemory := [x01; x02] |}.

(** Weights of one dimension: they have no [size(1)]. *)
Definition flat_weights : Tensor :=
  {| scalar_type := kByte; sizes := [4]; storage := [x00; x00; x00; x00] |}.

(** The calls that lead from [fresh] to [full]. *)
Definition filling : list (@call) :=
  [ResetEvictionStates;
   InitTensor some_keys (row x00) (count_of 3) junk;
   Put 0 (row x01); Put 2 (row x02)].

End Example.

(* ================================================================== *)
(** ** Bytes, integers and buffers *)

Ltac unbool :=
  repeat match goal with
    | H : _ && _ = true |- _ => apply andb_prop in H as [? ?]
    | H : _ || _ = false |- _ => apply orb_false_elim in H as [? ?]
    | H : negb _ = true |- _ => apply negb_true_iff in H
    | H : negb _ = false |- _ => apply negb_false_iff in H
    | H : (_ <=? _) = true |- _ => apply Z.leb_le in H
    | H : (_ <=? _) = false |- _ => apply Z.leb_gt in H
    | H : (_ <? _) = true |- _ => apply Z.ltb_lt in H
    | H : (_ <? _) = false |- _ => apply Z.ltb_ge in H
    | H : (_ =? _) = true |- _ => apply Z.eqb_eq in H
    | H : (_ =? _) = false |- _ => apply Z.eqb_neq in H
    end.

Lemma Z_of_byte_range (b : byte) : 0 <= Z_of_byte b < 256.
Proof.
  unfold Z_of_byte. pose proof (Byte.to_N_bounded b). lia.
Qed.

Lemma Z_of_byte_of_Z (z : Z) : Z_of_byte (byte_of_Z z) = z mod 256.
Proof.
  unfold Z_of_byte, byte_of_Z.
  assert (R : 0 <= z mod 256 < 256) by (apply Z.mod_pos_bound; lia).
  destruct (Byte.of_N (Z.to_N (z mod 256))) as [b|] eqn:E.
  - apply Byte.to_of_N in E. rewrite E. lia.
  - apply Byte.of_N_None_iff in E. lia.
Qed.

Lemma length_le_bytes (n : nat) (z : Z) : length (le_bytes n z) = n.
Proof.
  revert z. induction n as [|n IH]; intros z; simpl; [reflexivity|].
  now rewrite IH.
Qed.

Lemma le_value_le_bytes (n : nat) (z : Z) :
  le_value (le_bytes n z) = z mod 256 ^ Z.of_nat n.
Proof.
  revert z. induction n as [|n IH]; intros z.
  - simpl. now rewrite Z.mod_1_r.
  - cbn [le_bytes le_value]. rewrite IH, Z_of_byte_of_Z.
    rewrite Nat2Z.inj_succ, Z.pow_succ_r by lia.
    rewrite Z.rem_mul_r by (try apply Z.pow_pos_nonneg; lia).
    reflexivity.
Qed.

Lemma to_int64_range (z : Z) : INT64_MIN <= to_int64 z <= INT64_MAX.
Proof.
  unfold to_int64, to_signed, INT64_MIN, INT64_MAX.
  pose proof (Z.mod_pos_bound (z + 2 ^ (64 - 1)) (2 ^ 64) ltac:(lia)).
  change (2 ^ (64 - 1)) with (2 ^ 63) in *.
  change (2 ^ 64) with (2 * 2 ^ 63) in *. lia.
Qed.

Lemma to_int64_id (z : Z) : INT64_MIN <= z <= INT64_MAX -> to_int64 z = z.
Proof.
  unfold to_int64, to_signed, INT64_MIN, INT64_MAX. intros R.
  change (2 ^ (64 - 1)) with (2 ^ 63) in *.
  rewrite Z.mod_small; [lia|].
  change (2 ^ 64) with (2 * 2 ^ 63). lia.
Qed.

Lemma to_int64_mod (z : Z) : to_int64 (z mod 2 ^ 64) = to_int64 z.
Proof.
  unfold to_int64, to_signed. f_equal.
  rewrite Zplus_mod_idemp_l. reflexivity.
Qed.

Lemma to_uint64_idem (z : Z) : to_uint64 (to_uint64 z) = to_uint64 z.
Proof. unfold to_uint64. apply Z.mod_mod. lia. Qed.

Lemma to_uint64_id (z : Z) : 0 <= z <= INT64_MAX -> to_uint64 z = z.
Proof.
  unfold to_uint64, INT64_MAX. intros R. apply Z.mod_small.
  change (2 ^ 64) with (2 * 2 ^ 63). lia.
Qed.

(** The key read back from its memory image is the key. *)
Lemma read_int64_le_bytes (k : Z) :
  read_int64 (le_bytes 8 k) = Some (to_int64 k).
Proof.
  unfold read_int64. rewrite length_le_bytes. simpl (8 <? 8)%nat. cbv iota.
  rewrite firstn_all2 by (rewrite length_le_bytes; lia).
  rewrite le_value_le_bytes. change (256 ^ Z.of_nat 8) with (2 ^ 64).
  now rewrite to_int64_mod.
Qed.

Lemma read_int64_StringPiece (key : Z) :
  INT64_MIN <= key <= INT64_MAX -> read_int64 (StringPiece key) = Some key.
Proof.
  intros R. unfold StringPiece. rewrite read_int64_le_bytes.
  now rewrite to_int64_id.
Qed.

Lemma read_int64_in_range (bs : list byte) (k : Z) :
  read_int64 bs = Some k -> INT64_MIN <= k <= INT64_MAX.
Proof.
  unfold read_int64. destruct (_ <? _)%nat; [discriminate|].
  intros [= <-]. apply to_int64_range.
Qed.

Lemma read_int64_some (bs : list byte) :
  length bs = 8%nat -> exists k, read_int64 bs = Some k.
Proof.
  intros E. unfold read_int64. rewrite E. simpl. eauto.
Qed.

Lemma read_at_Some off len s bs :
  read_at off len s = Some bs <->
  0 <= off /\ 0 <= len /\ off + len <= Z.of_nat (length s) /\
  bs = firstn (Z.to_nat len) (skipn (Z.to_nat off) s).
Proof.
  unfold read_at. destruct (_ && _) eqn:E.
  - unbool. split; [intros [= <-]; auto|]. intros (_ & _ & _ & ->). reflexivity.
  - split; [discriminate|]. intros (A & B & C & _).
    apply Z.leb_le in A, B, C. rewrite A, B, C in E. discriminate.
Qed.

Lemma write_at_Some off bs s s' :
  write_at off bs s = Some s' <->
  0 <= off /\ off + Z.of_nat (length bs) <= Z.of_nat (length s) /\
  s' = firstn (Z.to_nat off) s ++ bs ++ skipn (Z.to_nat off + length bs) s.
Proof.
  unfold write_at. destruct (_ && _) eqn:E.
  - unbool. split; [intros [= <-]; auto|]. intros (_ & _ & ->). reflexivity.
  - split; [discriminate|]. intros (A & B & _).
    apply Z.leb_le in A, B. rewrite A, B in E. discriminate.
Qed.

Lemma read_at_length off len s bs :
  read_at off len s = Some bs -> Z.of_nat (length bs) = len.
Proof.
  intros (A & B & C & ->)%read_at_Some.
  rewrite length_firstn, length_skipn. lia.
Qed.

Lemma read_at_all (s : list byte) : read_at 0 (Z.of_nat (length s)) s = Some s.
Proof.
  apply read_at_Some. repeat split; try lia.
  simpl. now rewrite Nat2Z.id, firstn_all.
Qed.

Lemma write_at_length off bs s s' :
  write_at off bs s = Some s' -> length s' = length s.
Proof.
  intros (A & B & ->)%write_at_Some.
  rewrite !length_app, length_firstn, length_skipn. lia.
Qed.

Lemma write_at_in_bounds off bs s :
  0 <= off -> off + Z.of_nat (length bs) <= Z.of_nat (length s) ->
  exists s', write_at off bs s = Some s'.
Proof.
  intros. eexists. apply write_at_Some. repeat split; assumption.
Qed.

(** A read of the bytes just written returns them. *)
Lemma read_at_write_at_same off bs s s' :
  write_at off bs s = Some s' ->
  read_at off (Z.of_nat (length bs)) s' = Some bs.
Proof.
  intros W. pose proof (write_at_length _ _ _ _ W) as Len.
  apply write_at_Some in W as (A & B & ->).
  apply read_at_Some. rewrite Len. repeat split; try lia.
  assert (Lf : length (firstn (Z.to_nat off) s) = Z.to_nat off)
    by (rewrite length_firstn; lia).
  rewrite skipn_app, Lf, Nat.sub_diag.
  rewrite skipn_all2 by (rewrite Lf; lia). simpl.
  rewrite Nat2Z.id, firstn_app, Nat.sub_diag, firstn_all. simpl.
  now rewrite app_nil_r.
Qed.

(** A write leaves the bytes outside its range as they were. *)
Lemma read_at_write_at_other off bs s s' off' len :
  write_at off bs s = Some s' ->
  off' + len <= off \/ off + Z.of_nat (length bs) <= off' ->
  read_at off' len s' = read_at off' len s.
Proof.
  intros W D. pose proof (write_at_length _ _ _ _ W) as Len.
  apply write_at_Some in W as (A & B & ->).
  unfold read_at. rewrite Len.
  destruct ((0 <=? off') && (0 <=? len) && (off' + len <=? Z.of_nat (length s)))
    eqn:E'; [|reflexivity].
  unbool. f_equal.
  assert (Lf : length (firstn (Z.to_nat off) s) = Z.to_nat off)
    by (rewrite length_firstn; lia).
  destruct D as [D|D].
  - rewrite skipn_app, Lf, firstn_app, length_skipn, Lf.
    replace (Z.to_nat off' - Z.to_nat off)%nat with 0%nat by lia.
    replace (Z.to_nat len - (Z.to_nat off - Z.to_nat off'))%nat with 0%nat by lia.
    simpl. rewrite app_nil_r, skipn_firstn_comm.
    rewrite firstn_firstn. f_equal. lia.
  - rewrite skipn_app, Lf, (skipn_all2 (firstn _ _)) by (rewrite Lf; lia). simpl.
    rewrite skipn_app.
    rewrite (skipn_all2 bs) by lia. simpl.
    rewrite skipn_skipn. do 2 f_equal. lia.
Qed.

(* ================================================================== *)
(** ** The monad *)

Section Properties.

Context {L : LruAllocator} {X : Externals}.

Lemma bind_Ret {A B} (m : M A) (k : A -> M B) st b st' :
  bind m k st = Ret (b, st') <->
  exists a s, m st = Ret (a, s) /\ k a s = Ret (b, st').
Proof.
  unfold bind. destruct (m st) as [[a s]|f].
  - split; [eauto|]. now intros (a' & s' & [= -> ->] & H).
  - split; [discriminate|]. now intros (a' & s' & [=] & _).
Qed.

Lemma bind_step {A B} (m : M A) (k : A -> M B) st a s :
  m st = Ret (a, s) -> bind m k st = k a s.
Proof. unfold bind. now intros ->. Qed.

Lemma bind_fault {A B} (m : M A) (k : A -> M B) st f :
  m st = Fault f -> bind m k st = Fault f.
Proof. unfold bind. now intros ->. Qed.

(** *** The remove callback, step by step *)

Lemma eviction_cb_null (data : RemoveCbData) st :
  evicted_weights_ptr_ st = None -> eviction_cb data st = Fault NullDeref.
Proof.
  intros E. unfold eviction_cb. apply bind_fault. unfold deref. now rewrite E.
Qed.

Lemma eviction_cb_unfold (data : RemoveCbData) st indices weights :
  evicted_indices_ptr_ st = Some indices ->
  evicted_weights_ptr_ st = Some weights ->
  eviction_cb data st =
  match dispatch_float_half_and_byte (scalar_type weights) with
  | Fault f => Fault f
  | Ret esz =>
    match context data with
    | kNormal => Ret (tt, st)
    | kEviction =>
      match data_ptr_int64 indices with
      | Fault f => Fault f
      | Ret _ =>
        match size weights 1 with
        | Fault f => Fault f
        | Ret w =>
          match read_int64 (getKey (item data)) with
          | None => Fault OutOfBoundsRead
          | Some key =>
            match write_at (8 * eviction_row_id st) (le_bytes 8 key)
                    (storage indices) with
            | None => Fault OutOfBoundsWrite
            | Some si =>
              match read_at 0 (w * esz) (getMemory (item data)) with
              | None => Fault OutOfBoundsRead
              | Some row =>
                match write_at (eviction_row_id st * w * esz) row
                        (storage weights) with
                | None => Fault OutOfBoundsWrite
                | Some sw =>
                    Ret (tt, captured_state st (with_storage indices si)
                               (with_storage weights sw))
                end
              end
            end
          end
        end
      end
    end
  end.
Proof.
  intros Ei Ew. unfold eviction_cb, bind, deref, lift. rewrite Ew.
  destruct (dispatch_float_half_and_byte _) as [esz|f]; [|reflexivity].
  destruct (context data); [|reflexivity].
  rewrite Ei. destruct (data_ptr_int64 indices) as [[]|f]; [|reflexivity].
  unfold fetch_add_eviction_row_id.
  destruct (size weights 1) as [w|f]; [|reflexivity].
  destruct (read_int64 _) as [key|]; [|reflexivity]. cbn [of_option].
  unfold store_indices, store_weights, bind, deref, lift, modify.
  cbn [evicted_indices_ptr_ evicted_weights_ptr_ with_row_id with_indices
       eviction_row_id].
  rewrite Ei.
  destruct (write_at _ _ (storage indices)) as [si|]; [|reflexivity].
  cbn [of_option].
  destruct (read_at _ _ _) as [row|]; [|reflexivity]. cbn [of_option].
  cbn [evicted_indices_ptr_ evicted_weights_ptr_ with_row_id with_indices
       eviction_row_id].
  rewrite Ew.
  destruct (write_at _ _ (storage weights)) as [sw|]; reflexivity.
Qed.

Lemma dispatch_size dt esz :
  dispatch_float_half_and_byte dt = Ret esz ->
  esz = elementSize dt /\ 0 < esz.
Proof. destruct dt; simpl; intros [= <-]; split; reflexivity || lia. Qed.

Lemma data_ptr_int64_Long t : scalar_type t = kLong -> data_ptr_int64 t = Ret tt.
Proof. unfold data_ptr_int64. now intros ->. Qed.

Lemma data_ptr_int64_Ret t u : data_ptr_int64 t = Ret u -> scalar_type t = kLong.
Proof.
  unfold data_ptr_int64. destruct (scalar_type t); simpl; congruence.
Qed.

(** A removal that is not an eviction changes nothing. *)
Lemma eviction_cb_normal m w esz st data :
  buffers_bound m w st -> capture_types esz st -> context data = kNormal ->
  eviction_cb data st = Ret (tt, st).
Proof.
  unfold buffers_bound, capture_types. intros B T C.
  destruct (evicted_indices_ptr_ st) as [indices|] eqn:Ei; [|contradiction].
  destruct (evicted_weights_ptr_ st) as [weights|] eqn:Ew; [|contradiction].
  rewrite (eviction_cb_unfold _ _ _ _ Ei Ew).
  destruct T as [_ ->]. now rewrite C.
Qed.

(** One eviction: the callback takes the slot under the cursor, advances
    the cursor, and stores the key and the row in that slot; the other
    slots and the rest of the object stay as they are. *)
Lemma eviction_cb_capture m w esz st data :
  buffers_bound m w st -> capture_types esz st ->
  context data = kEviction ->
  0 <= eviction_row_id st < m ->
  row_item w esz (item data) ->
  exists st',
    eviction_cb data st = Ret (tt, st') /\
    eviction_row_id st' = eviction_row_id st + 1 /\
    buffers_bound m w st' /\ capture_types esz st' /\
    cache_ st' = cache_ st /\ pool_ids_ st' = pool_ids_ st /\
    cache_config_ st' = cache_config_ st /\
    captured_key st' (eviction_row_id st) = read_int64 (getKey (item data)) /\
    captured_row st' (eviction_row_id st) = Some (getMemory (item data)) /\
    forall j, j <> eviction_row_id st ->
              captured_key st' j = captured_key st j /\
              captured_row st' j = captured_row st j.
Proof.
  unfold buffers_bound, capture_types, captured_key, captured_row.
  intros B T C R [K Mem].
  destruct (evicted_indices_ptr_ st) as [indices|] eqn:Ei; [|contradiction].
  destruct (evicted_weights_ptr_ st) as [weights|] eqn:Ew; [|contradiction].
  destruct B as (Si & Li & Sw & Lw & Rm & Rw). destruct T as [Ti Tw].
  destruct (dispatch_size _ _ Tw) as [Esz Pos].
  rewrite (eviction_cb_unfold _ _ _ _ Ei Ew), Tw, C.
  rewrite (data_ptr_int64_Long _ Ti). unfold size. rewrite Sw. cbn [nth_error of_option].
  destruct (read_int64_some _ K) as [key Ek]. rewrite Ek.
  pose proof (read_int64_in_range _ _ Ek) as Rk.
  rewrite Ti in Li. cbn [elementSize] in Li.
  set (r := eviction_row_id st) in *.
  destruct (write_at_in_bounds (8 * r) (le_bytes 8 key) (storage indices))
    as [si Wi]; [lia | rewrite length_le_bytes; lia |].
  rewrite Wi. rewrite <- Mem, read_at_all.
  destruct (write_at_in_bounds (r * w * esz) (getMemory (item data))
              (storage weights)) as [sw Ww]; [nia | rewrite Lw, <- Esz; nia |].
  rewrite Ww. eexists. split; [reflexivity|].
  cbn [captured_state eviction_row_id evicted_indices_ptr_ evicted_weights_ptr_
       cache_ pool_ids_ cache_config_ with_storage sizes storage scalar_type].
  rewrite (write_at_length _ _ _ _ Wi), (write_at_length _ _ _ _ Ww).
  rewrite Sw, Ti.
  split; [apply to_int64_id; unfold INT64_MIN, INT64_MAX in *; lia|].
  split; [repeat split; try assumption; try reflexivity; cbn [elementSize]; lia|].
  split; [split; [reflexivity|assumption]|].
  do 3 (split; [reflexivity|]).
  assert (Ro : r * w * esz = r * (w * elementSize (scalar_type weights)))
    by (rewrite <- Esz; ring).
  split; [|split].
  - unfold int64_at, with_storage. cbn [storage].
    pose proof (read_at_write_at_same _ _ _ _ Wi) as Rd.
    rewrite length_le_bytes in Rd. change (Z.of_nat 8) with 8 in Rd.
    rewrite Rd, read_int64_le_bytes, to_int64_id by assumption. reflexivity.
  - unfold row_at, with_storage. cbn [storage scalar_type].
    pose proof (read_at_write_at_same _ _ _ _ Ww) as Rd.
    rewrite Mem, Ro, Esz in Rd. exact Rd.
  - intros j Nj. split.
    + unfold int64_at, with_storage. cbn [storage].
      rewrite (read_at_write_at_other _ _ _ _ (8 * j) 8 Wi); [reflexivity|].
      rewrite length_le_bytes. lia.
    + unfold row_at, with_storage. cbn [storage scalar_type].
      rewrite (read_at_write_at_other _ _ _ _ _ _ Ww); [reflexivity|].
      rewrite Mem, Ro, <- Esz. nia.
Qed.

(** *** Sequences of removals *)

Lemma notify_app evs1 evs2 st :
  notify (evs1 ++ evs2) st = (notify evs1 ;;; notify evs2) st.
Proof.
  revert st. induction evs1 as [|d evs1 IH]; intros st; [reflexivity|].
  cbn [app notify]. unfold bind.
  destruct (eviction_cb d st) as [[[] s]|f]; [|reflexivity].
  rewrite IH. reflexivity.
Qed.

Lemma evictions_app evs1 evs2 :
  evictions (evs1 ++ evs2) = evictions evs1 ++ evictions evs2.
Proof. unfold evictions. now rewrite filter_app, map_app. Qed.

Lemma evictions_cons d evs :
  evictions (d :: evs) =
  match context d with
  | kEviction => item d :: evictions evs
  | kNormal => evictions evs
  end.
Proof. unfold evictions. cbn [filter]. now destruct (context d). Qed.

(** Running the callback over a sequence of removals that fits the bound
    buffers: the cursor advances by the number of evictions, slot
    [cursor + i] receives eviction [i], and every other slot and the rest
    of the object stay as they are. *)
Lemma notify_capture m w esz evs :
  forall st,
    buffers_bound m w st -> capture_types esz st ->
    0 <= eviction_row_id st ->
    eviction_row_id st + Z.of_nat (length (evictions evs)) <= m ->
    Forall (row_item w esz) (evictions evs) ->
    exists st',
      notify evs st = Ret (tt, st') /\
      eviction_row_id st'
      = eviction_row_id st + Z.of_nat (length (evictions evs)) /\
      buffers_bound m w st' /\ capture_types esz st' /\
      cache_ st' = cache_ st /\ pool_ids_ st' = pool_ids_ st /\
      cache_config_ st' = cache_config_ st /\
      (forall i it,
          nth_error (evictions evs) i = Some it ->
          captured_key st' (eviction_row_id st + Z.of_nat i)
          = read_int64 (getKey it) /\
          captured_row st' (eviction_row_id st + Z.of_nat i)
          = Some (getMemory it)) /\
      (forall j,
          j < eviction_row_id st \/
          eviction_row_id st + Z.of_nat (length (evictions evs)) <= j ->
          captured_key st' j = captured_key st j /\
          captured_row st' j = captured_row st j).
Proof.
  induction evs as [|d evs IH]; intros st B T R0 Rm Rows.
  - exists st. cbn [notify evictions filter map length Z.of_nat].
    rewrite Z.add_0_r. repeat split; auto.
    all: destruct i; discriminate.
  - cbn [notify]. rewrite evictions_cons in *.
    destruct (context d) eqn:C.
    + cbn [length] in *. rewrite Nat2Z.inj_succ in *.
      apply Forall_cons_iff in Rows as [Row Rows].
      destruct (eviction_cb_capture m w esz st d B T C ltac:(lia) Row)
        as (s1 & E1 & Cur1 & B1 & T1 & F1 & F2 & F3 & K1 & W1 & O1).
      destruct (IH s1 B1 T1 ltac:(lia) ltac:(lia) Rows)
        as (s2 & E2 & Cur2 & B2 & T2 & G1 & G2 & G3 & In2 & Out2).
      exists s2. rewrite (bind_step _ _ _ _ _ E1).
      split; [exact E2|]. split; [lia|].
      do 2 (split; [assumption|]).
      do 3 (split; [congruence|]).
      split.
      * intros [|i] it Hi.
        -- injection Hi as <-. cbn [Z.of_nat]. rewrite Z.add_0_r.
           destruct (Out2 (eviction_row_id st) ltac:(lia)) as [-> ->].
           split; assumption.
        -- cbn [nth_error] in Hi. destruct (In2 i it Hi) as [A1 A2].
           rewrite Cur1 in A1, A2. rewrite Nat2Z.inj_succ.
           replace (eviction_row_id st + Z.succ (Z.of_nat i))
             with (eviction_row_id st + 1 + Z.of_nat i) by lia.
           split; assumption.
      * intros j Hj. destruct (Out2 j ltac:(lia)) as [-> ->].
        apply O1. lia.
    + destruct (IH st B T R0 Rm Rows) as (s2 & E2 & Rest).
      exists s2. rewrite (bind_step _ _ _ _ _ (eviction_cb_normal m w esz st d B T C)).
      split; [exact E2|exact Rest].
Qed.

(** *** Binding the capture buffers *)

Lemma le_value_range (bs : list byte) :
  0 <= le_value bs < 256 ^ Z.of_nat (length bs).
Proof.
  induction bs as [|b bs IH]; [simpl; lia|].
  cbn [le_value length]. rewrite Nat2Z.inj_succ, Z.pow_succ_r by lia.
  pose proof (Z_of_byte_range b). lia.
Qed.

Lemma to_signed_range bits u :
  0 < bits ->
  - 2 ^ (bits - 1) <= to_signed bits u < 2 ^ (bits - 1).
Proof.
  intros P. unfold to_signed.
  assert (E : 2 ^ bits = 2 * 2 ^ (bits - 1)).
  { rewrite <- Z.pow_succ_r by lia. f_equal. lia. }
  pose proof (Z.pow_pos_nonneg 2 (bits - 1) ltac:(lia) ltac:(lia)).
  pose proof (Z.mod_pos_bound (u + 2 ^ (bits - 1)) (2 ^ bits) ltac:(lia)).
  lia.
Qed.

Lemma item_long_range count m :
  item_long count = Ret m -> INT64_MIN <= m <= INT64_MAX.
Proof.
  unfold item_long. destruct (negb _); [discriminate|].
  destruct (read_at _ _ _) as [bs|] eqn:Rd; [|discriminate]. cbn [of_option obind].
  apply read_at_length in Rd. unfold INT64_MIN, INT64_MAX.
  destruct (scalar_type count); cbn [elementSize] in Rd.
  - intros [= <-]. pose proof (le_value_range bs) as R.
    replace (Z.of_nat (length bs)) with 1 in R by lia. lia.
  - intros [= <-]. pose proof (to_signed_range 32 (le_value bs) ltac:(lia)).
    change (2 ^ (32 - 1)) with (2 ^ 31) in *. lia.
  - intros [= <-]. pose proof (to_signed_range 64 (le_value bs) ltac:(lia)).
    change (2 ^ (64 - 1)) with (2 ^ 63) in *. lia.
  - destruct (float_to_long _ _); [|discriminate]. intros [= <-].
    apply to_int64_range.
  - destruct (float_to_long _ _); [|discriminate]. intros [= <-].
    apply to_int64_range.
  - destruct (float_to_long _ _); [|discriminate]. intros [= <-].
    apply to_int64_range.
Qed.

Lemma length_neg_one_bytes dt :
  Z.of_nat (length (neg_one_bytes dt)) = elementSize dt.
Proof. destruct dt; reflexivity. Qed.

Lemma length_concat_repeat {A} (l : list A) n :
  length (concat (repeat l n)) = (n * length l)%nat.
Proof.
  induction n as [|n IH]; [reflexivity|].
  cbn [repeat concat]. rewrite length_app, IH. lia.
Qed.

(** What [init_tensor_for_l2_eviction] does when it returns. *)
Lemma init_tensor_Ret indices weights count junk st u st' :
  init_tensor_for_l2_eviction indices weights count junk st = Ret (u, st') <->
  exists m w ti tw,
    item_long count = Ret m /\ 0 <= m /\
    nth_error (sizes weights) 1 = Some w /\ 0 <= w /\
    ones_times_neg_one m (scalar_type indices) = Ret ti /\
    empty m w (scalar_type weights) junk = Ret tw /\
    st' = with_weights (Some tw) (with_indices (Some ti) st).
Proof.
  unfold init_tensor_for_l2_eviction, bind, lift, modify, size.
  destruct (item_long count) as [m|f].
  2:{ split; [discriminate|]. intros (m & w & ti & tw & [=] & _). }
  unfold ones_times_neg_one at 1. destruct (m <? 0) eqn:Em.
  { split; [discriminate|]. intros (m' & w & ti & tw & [= <-] & Pm & _).
    unbool. lia. }
  destruct (nth_error (sizes weights) 1) as [w|]; cbn [of_option].
  2:{ split; [discriminate|]. intros (m' & w & ti & tw & _ & _ & [=] & _). }
  unfold empty at 1. rewrite Em. cbn [orb]. destruct (w <? 0) eqn:Ew.
  { split; [discriminate|]. intros (m' & w' & ti & tw & _ & _ & [= <-] & Pw & _).
    unbool. lia. }
  unbool. destruct u. split.
  - intros [= <-]. exists m, w. do 2 eexists.
    unfold ones_times_neg_one, empty.
    replace (m <? 0) with false by (symmetry; apply Z.ltb_ge; assumption).
    replace (w <? 0) with false by (symmetry; apply Z.ltb_ge; assumption).
    cbn [orb]. repeat split; try reflexivity; lia.
  - intros (m' & w' & ti & tw & [= <-] & _ & [= <-] & _ & Ti & Tw & ->).
    unfold ones_times_neg_one, empty in Ti, Tw.
    replace (m <? 0) with false in * by (symmetry; apply Z.ltb_ge; assumption).
    replace (w <? 0) with false in * by (symmetry; apply Z.ltb_ge; assumption).
    cbn [orb] in Tw. injection Ti as <-. injection Tw as <-. reflexivity.
Qed.

(** After [init_tensor_for_l2_eviction], buffers of [count] rows are
    bound, and nothing else has changed: not the cursor in particular. *)
Lemma init_tensor_bound indices weights count junk st u st' :
  init_tensor_for_l2_eviction indices weights count junk st = Ret (u, st') ->
  exists m w,
    item_long count = Ret m /\ size weights 1 = Ret w /\
    buffers_bound m w st' /\
    eviction_row_id st' = eviction_row_id st /\
    cache_ st' = cache_ st /\ pool_ids_ st' = pool_ids_ st /\
    cache_config_ st' = cache_config_ st.
Proof.
  intros (m & w & ti & tw & Em & Pm & Ew & Pw & Ti & Tw & ->)%init_tensor_Ret.
  exists m, w. split; [assumption|]. split; [unfold size; now rewrite Ew|].
  split; [|repeat split].
  unfold ones_times_neg_one, empty in Ti, Tw.
  replace (m <? 0) with false in * by (symmetry; apply Z.ltb_ge; assumption).
  replace (w <? 0) with false in * by (symmetry; apply Z.ltb_ge; assumption).
  cbn [orb] in Tw. injection Ti as <-. injection Tw as <-.
  unfold buffers_bound.
  cbn [with_weights with_indices evicted_indices_ptr_ evicted_weights_ptr_
       sizes storage scalar_type].
  pose proof (item_long_range _ _ Em) as Rm.
  split; [reflexivity|]. split.
  { rewrite length_concat_repeat, Nat2Z.inj_mul, length_neg_one_bytes.
    rewrite Z2Nat.id by lia. reflexivity. }
  split; [reflexivity|]. split.
  { rewrite length_map, length_seq.
    assert (0 < elementSize (scalar_type weights))
      by (destruct (scalar_type weights); reflexivity).
    rewrite Z2Nat.id by nia. reflexivity. }
  lia.
Qed.

(** *** Bounds of the captures *)

(** One removal on bound buffers with room under the cursor: whatever the
    scalar types and the evicted item are, no store leaves its buffer and
    no pointer is empty; when the callback returns, the buffers are still
    bound and the cursor has advanced by one for an eviction and not at
    all otherwise. *)
Lemma eviction_cb_safe m w st data :
  buffers_bound m w st ->
  0 <= eviction_row_id st ->
  (context data = kEviction -> eviction_row_id st < m) ->
  match eviction_cb data st with
  | Ret (_, st') =>
      buffers_bound m w st' /\
      eviction_row_id st'
      = eviction_row_id st + Z.of_nat (length (evictions [data])) /\
      cache_ st' = cache_ st /\ pool_ids_ st' = pool_ids_ st /\
      cache_config_ st' = cache_config_ st
  | Fault f => f <> OutOfBoundsWrite /\ f <> NullDeref
  end.
Proof.
  intros B R0 Rm. pose proof B as B'. unfold buffers_bound in B.
  destruct (evicted_indices_ptr_ st) as [indices|] eqn:Ei; [|contradiction].
  destruct (evicted_weights_ptr_ st) as [weights|] eqn:Ew; [|contradiction].
  destruct B as (Si & Li & Sw & Lw & Rm' & Rw).
  rewrite (eviction_cb_unfold _ _ _ _ Ei Ew). rewrite evictions_cons.
  destruct (dispatch_float_half_and_byte _) as [esz|f] eqn:Tw.
  2:{ destruct (scalar_type weights); try discriminate;
      injection Tw as <-; split; discriminate. }
  destruct (dispatch_size _ _ Tw) as [Esz Pos].
  destruct (context data).
  2:{ cbn [evictions filter map length Z.of_nat]. rewrite Z.add_0_r. auto. }
  specialize (Rm eq_refl).
  destruct (data_ptr_int64 indices) as [u|f] eqn:Ti.
  2:{ unfold data_ptr_int64 in Ti. destruct (ScalarType_eqb _ _); [discriminate|].
      injection Ti as <-. split; discriminate. }
  apply data_ptr_int64_Ret in Ti. rewrite Ti in Li. cbn [elementSize] in Li.
  unfold size. rewrite Sw. cbn [nth_error of_option].
  destruct (read_int64 _) as [key|]; [|split; discriminate].
  destruct (write_at_in_bounds (8 * eviction_row_id st) (le_bytes 8 key)
              (storage indices)) as [si Wi];
    [lia | rewrite length_le_bytes; lia |].
  rewrite Wi.
  destruct (read_at _ _ _) as [row|] eqn:Rd; [|split; discriminate].
  apply read_at_length in Rd.
  destruct (write_at_in_bounds (eviction_row_id st * w * esz) row
              (storage weights)) as [sw Ww]; [nia | rewrite Lw, <- Esz; nia |].
  rewrite Ww.
  cbn [captured_state eviction_row_id cache_ pool_ids_ cache_config_
       evictions filter map length].
  split; [|split; [|auto]].
  - unfold buffers_bound, with_storage, captured_state.
    cbn [evicted_indices_ptr_ evicted_weights_ptr_ sizes storage scalar_type].
    rewrite (write_at_length _ _ _ _ Wi), (write_at_length _ _ _ _ Ww), Ti.
    cbn [elementSize]. repeat split; try assumption; lia.
  - change (Z.of_nat 1) with 1. apply to_int64_id.
    unfold INT64_MIN, INT64_MAX in *. lia.
Qed.

Lemma notify_safe m w evs :
  forall st,
    buffers_bound m w st ->
    0 <= eviction_row_id st ->
    eviction_row_id st + Z.of_nat (length (evictions evs)) <= m ->
    match notify evs st with
    | Ret (_, st') =>
        buffers_bound m w st' /\
        eviction_row_id st'
        = eviction_row_id st + Z.of_nat (length (evictions evs)) /\
        cache_ st' = cache_ st /\ pool_ids_ st' = pool_ids_ st /\
        cache_config_ st' = cache_config_ st
    | Fault f => f <> OutOfBoundsWrite /\ f <> NullDeref
    end.
Proof.
  induction evs as [|d evs IH]; intros st B R0 Rm.
  - cbn. rewrite Z.add_0_r. auto.
  - cbn [notify]. unfold bind.
    rewrite evictions_cons in Rm.
    assert (Rd : context d = kEviction -> eviction_row_id st < m).
    { intros C. rewrite C in Rm. cbn [length] in Rm. lia. }
    pose proof (eviction_cb_safe m w st d B R0 Rd) as S.
    destruct (eviction_cb d st) as [[[] s1]|f]; [|exact S].
    destruct S as (B1 & Cur1 & F1 & F2 & F3).
    rewrite evictions_cons in Cur1 |- *.
    assert (Len : Z.of_nat (length (evictions [d]))
                  + Z.of_nat (length (evictions evs))
                  = Z.of_nat (length match context d with
                                     | kEviction => item d :: evictions evs
                                     | kNormal => evictions evs
                                     end)).
    { rewrite evictions_cons. destruct (context d); cbn [evictions filter map length]; lia. }
    rewrite evictions_cons in Len. cbn [evictions filter map] in Cur1, Len.
    specialize (IH s1 B1 ltac:(destruct (context d); cbn [length] in *; lia)
                   ltac:(destruct (context d); cbn [length] in *; lia)).
    destruct (notify evs s1) as [[[] s2]|f]; [|exact IH].
    destruct IH as (B2 & Cur2 & G1 & G2 & G3).
    split; [assumption|]. split; [|repeat split; congruence].
    destruct (context d); cbn [length] in *; lia.
Qed.

(** C3.  A cycle starts with [reset_eviction_states] and
    [init_tensor_for_l2_eviction] for [m] lookups, and at most [m]
    evictions follow.  Then at every point of the cycle, that is after
    every prefix of the removals, either the callback has returned so far
    and the cursor, which counts the evictions so far, is between 0 and
    [m], or it has stopped with a fault that is not a store outside a
    buffer: and the slot that an eviction is about to store to lies
    strictly below [m], the length of both buffers. *)
Theorem cursor_and_stores_in_bounds
        (indices weights count : Tensor) (junk : nat -> byte)
        (st st0 : CacheLibCache) (m : Z) (evs : list RemoveCbData) :
  (reset_eviction_states ;;;
   init_tensor_for_l2_eviction indices weights count junk) st
  = Ret (tt, st0) ->
  item_long count = Ret m ->
  Z.of_nat (length (evictions evs)) <= m ->
  forall pre post,
    evs = pre ++ post ->
    match notify pre st0 with
    | Ret (_, s) =>
        eviction_row_id s = Z.of_nat (length (evictions pre)) /\
        0 <= eviction_row_id s <= m /\
        (exists w, buffers_bound m w s) /\
        (forall data rest,
            post = data :: rest -> context data = kEviction ->
            eviction_row_id s < m /\
            eviction_cb data s <> Fault OutOfBoundsWrite)
    | Fault f => f <> OutOfBoundsWrite
    end.
Proof.
  intros Init Em Len pre post ->.
  unfold reset_eviction_states, modify in Init.
  rewrite (bind_step _ _ _ tt (with_row_id 0 st) eq_refl) in Init.
  destruct (init_tensor_bound _ _ _ _ _ _ _ Init)
    as (m' & w & Em' & _ & B & Cur & _).
  assert (m' = m) by congruence. subst m'. cbn [with_row_id eviction_row_id] in Cur.
  rewrite evictions_app, length_app in Len.
  pose proof (notify_safe m w pre st0 B ltac:(lia) ltac:(lia)) as S.
  destruct (notify pre st0) as [[[] s]|f]; [|tauto].
  destruct S as (B1 & Cur1 & _). rewrite Cur in Cur1. cbn [Z.add] in Cur1.
  split; [exact Cur1|]. split; [lia|]. split; [eauto|].
  intros data rest -> C. rewrite evictions_cons, C in Len. cbn [length] in Len.
  split; [lia|].
  pose proof (eviction_cb_safe m w s data B1 ltac:(lia) ltac:(lia)) as S.
  destruct (eviction_cb data s) as [[[] s2]|f]; [discriminate|].
  destruct S as [S _]. congruence.
Qed.

(** *** What the callback never touches *)

(** The callback changes neither the allocator, the pools nor the
    configuration, and it returns only when the weights buffer is bound,
    which it then remains. *)
Lemma eviction_cb_frame data st u st' :
  eviction_cb data st = Ret (u, st') ->
  same_cache st st' /\
  (evicted_indices_ptr_ st <> None -> evicted_indices_ptr_ st' <> None) /\
  evicted_weights_ptr_ st' <> None /\
  exists k, eviction_row_id st'
            = Nat.iter k (fun r => to_int64 (r + 1)) (eviction_row_id st).
Proof.
  unfold same_cache. destruct u.
  destruct (evicted_weights_ptr_ st) as [weights|] eqn:Ew.
  2:{ now rewrite (eviction_cb_null _ _ Ew). }
  destruct (evicted_indices_ptr_ st) as [indices|] eqn:Ei.
  - rewrite (eviction_cb_unfold _ _ _ _ Ei Ew).
    destruct (dispatch_float_half_and_byte _); [|discriminate].
    destruct (context data).
    2:{ intros [= <-]. rewrite ?Ei, ?Ew. repeat split; try discriminate.
        now exists 0%nat. }
    destruct (data_ptr_int64 _); [|discriminate].
    destruct (size _ _); [|discriminate].
    destruct (read_int64 _); [|discriminate].
    destruct (write_at _ _ _); [|discriminate].
    destruct (read_at _ _ _); [|discriminate].
    destruct (write_at _ _ _); [|discriminate].
    intros [= <-]. cbn. repeat split; try discriminate. now exists 1%nat.
  - unfold eviction_cb, bind, deref, lift. rewrite Ew.
    destruct (dispatch_float_half_and_byte _); [|discriminate].
    destruct (context data).
    + rewrite Ei. discriminate.
    + intros [= <-]. rewrite ?Ew. repeat split; try discriminate; auto.
      now exists 0%nat.
Qed.

Lemma iter_add {A} (f : A -> A) (n k : nat) (x : A) :
  Nat.iter n f (Nat.iter k f x) = Nat.iter (n + k) f x.
Proof. induction n as [|n IH]; [reflexivity|]. simpl. f_equal. exact IH. Qed.

Lemma notify_frame evs :
  forall st u st',
    notify evs st = Ret (u, st') ->
    same_cache st st' /\
    (evicted_indices_ptr_ st <> None -> evicted_indices_ptr_ st' <> None) /\
    (evicted_weights_ptr_ st <> None -> evicted_weights_ptr_ st' <> None) /\
    exists k, eviction_row_id st'
              = Nat.iter k (fun r => to_int64 (r + 1)) (eviction_row_id st).
Proof.
  unfold same_cache.
  induction evs as [|d evs IH]; intros st [] st'.
  - intros [= <-]. repeat split; auto. now exists 0%nat.
  - cbn [notify]. intros (u1 & s1 & E1 & E2)%bind_Ret.
    apply eviction_cb_frame in E1 as ((A1 & A2 & A3) & Pi & Pw & k1 & C1).
    apply IH in E2 as ((B1 & B2 & B3) & Qi & Qw & k2 & C2).
    repeat split; try congruence; auto.
    exists (k2 + k1)%nat. now rewrite <- iter_add, <- C1.
Qed.

Lemma notify_normal esz evs st :
  capture_types esz st ->
  Forall (fun d => context d = kNormal) evs ->
  notify evs st = Ret (tt, st).
Proof.
  intros T. induction 1 as [|d evs C _ IH]; [reflexivity|].
  cbn [notify]. unfold capture_types in T.
  destruct (evicted_indices_ptr_ st) as [indices|] eqn:Ei; [|contradiction].
  destruct (evicted_weights_ptr_ st) as [weights|] eqn:Ew; [|contradiction].
  destruct T as [_ Tw].
  erewrite bind_step; [exact IH|].
  now rewrite (eviction_cb_unfold _ _ _ _ Ei Ew), Tw, C.
Qed.

(** *** [get] and [put] *)

Lemma get_shard_id_Ret key st i st' :
  get_shard_id key st = Ret (i, st') <->
  st' = st /\ pool_ids_ st <> [] /\
  i = to_uint64 (key_hash key) mod Z.of_nat (length (pool_ids_ st)).
Proof.
  unfold get_shard_id, bind, gets, lift, hash_shard.
  destruct (pool_ids_ st) as [|p ps] eqn:E.
  - cbn. split; [discriminate|]. now intros (_ & F & _).
  - destruct (Z.of_nat (length (p :: ps)) =? 0) eqn:Z0.
    { unbool. cbn [length] in Z0. lia. }
    split.
    + intros [= <- <-]. repeat split. discriminate.
    + intros (-> & _ & ->). reflexivity.
Qed.

Lemma get_shard_id_range key st i st' :
  get_shard_id key st = Ret (i, st') ->
  0 <= i < Z.of_nat (length (pool_ids_ st)).
Proof.
  intros (_ & Ne & ->)%get_shard_id_Ret. apply Z.mod_pos_bound.
  destruct (pool_ids_ st); [contradiction|cbn [length]; lia].
Qed.

Lemma get_pool_id_Ret key st pid st' :
  get_pool_id key st = Ret (pid, st') <->
  exists i, get_shard_id key st = Ret (i, st) /\ st' = st /\
            nth_error (pool_ids_ st) (Z.to_nat i) = Some pid.
Proof.
  unfold get_pool_id. rewrite bind_Ret. split.
  - intros (i & s & Ei & E).
    pose proof Ei as (-> & _)%get_shard_id_Ret.
    exists i. split; [assumption|].
    unfold bind, gets, lift in E.
    destruct (nth_error _ _); [|discriminate].
    cbn in E. injection E as <- <-. auto.
  - intros (i & Ei & -> & En). exists i, st. split; [assumption|].
    unfold bind, gets, lift. now rewrite En.
Qed.

Lemma get_shard_id_has_pool key st i :
  get_shard_id key st = Ret (i, st) ->
  exists pid, nth_error (pool_ids_ st) (Z.to_nat i) = Some pid /\
              get_pool_id key st = Ret (pid, st).
Proof.
  intros E. pose proof (get_shard_id_range _ _ _ _ E) as R.
  destruct (nth_error (pool_ids_ st) (Z.to_nat i)) as [pid|] eqn:En.
  - exists pid. split; [reflexivity|]. apply get_pool_id_Ret. eauto.
  - apply nth_error_None in En. lia.
Qed.

Lemma memcpy_whole dst src :
  length dst = length src ->
  memcpy dst src (Z.of_nat (length src)) = Ret src.
Proof.
  intros E. unfold memcpy. rewrite read_at_all.
  destruct (write_at_in_bounds 0 src dst) as [s' W]; [lia|lia|].
  rewrite W. cbn. f_equal.
  apply write_at_Some in W as (_ & _ & ->). cbn.
  rewrite skipn_all2 by lia. now rewrite app_nil_r.
Qed.

Lemma tensor_ok_nbytes data :
  tensor_ok data = true -> Z.of_nat (length (storage data)) = nbytes data.
Proof. unfold tensor_ok. intros H. unbool. assumption. Qed.

(** The steps of [put] once the pool is chosen. *)
Lemma put_in_pool_Ret pid key data st b st' :
  put_in_pool pid key data st = Ret (b, st') <->
  exists r evs c s,
    allocate pid (StringPiece key) (nbytes data) (cache_ st) = (r, evs, c) /\
    notify evs (with_cache c st) = Ret (tt, s) /\
    match r with
    | None => b = false /\ st' = s
    | Some it =>
        exists mem evs' c',
          memcpy (getMemory it) (storage data) (nbytes data) = Ret mem /\
          insertOrReplace {| getKey := getKey it; getPoolId := getPoolId it;
                             getMemory := mem |} (cache_ s) = (evs', c') /\
          notify evs' (with_cache c' s) = Ret (tt, st') /\ b = true
    end.
Proof.
  unfold put_in_pool, cache_allocate, cache_insertOrReplace, bind, lift, ret.
  split.
  - intros H.
    destruct (allocate _ _ _ _) as [[r evs] c] eqn:A.
    destruct (notify evs _) as [[[] s]|f] eqn:N; [|discriminate].
    exists r, evs, c, s. split; [reflexivity|]. split; [exact N|].
    destruct r as [it|].
    + destruct (memcpy _ _ _) as [mem|f] eqn:Mc; [|discriminate].
      destruct (insertOrReplace _ _) as [evs' c'] eqn:Ins.
      destruct (notify evs' _) as [[[] s']|f] eqn:N2; [|discriminate].
      injection H as <- <-. exists mem, evs', c'. auto.
    + injection H as <- <-. auto.
  - intros (r & evs & c & s & A & N & H). rewrite A, N.
    destruct r as [it|].
    + destruct H as (mem & evs' & c' & Mc & Ins & N2 & ->).
      now rewrite Mc, Ins, N2.
    + now destruct H as [-> ->].
Qed.

Lemma put_Ret key data st b st' :
  put key data st = Ret (b, st') <->
  exists pid, get_pool_id key st = Ret (pid, st) /\
              put_in_pool pid key data st = Ret (b, st').
Proof.
  unfold put. rewrite bind_Ret. split.
  - intros (pid & s & E & P).
    pose proof E as (i & _ & -> & _)%get_pool_id_Ret. eauto.
  - intros (pid & E & P). eauto.
Qed.

Lemma get_Ret key st r st' :
  get key st = Ret (r, st') <->
  st' = with_cache (snd (find (StringPiece key) (cache_ st))) st /\
  r = option_map getMemory (fst (find (StringPiece key) (cache_ st))).
Proof.
  unfold get, bind, cache_find, ret.
  destruct (find _ _) as [[it|] c]; cbn; split;
    (intros [= <- <-] || intros [-> ->]); auto.
Qed.

(** *** What a call leaves alone *)

Lemma put_frame key data st b st' :
  put key data st = Ret (b, st') ->
  pool_ids_ st' = pool_ids_ st /\ cache_config_ st' = cache_config_ st /\
  (evicted_indices_ptr_ st <> None -> evicted_indices_ptr_ st' <> None) /\
  (evicted_weights_ptr_ st <> None -> evicted_weights_ptr_ st' <> None) /\
  exists k, eviction_row_id st'
            = Nat.iter k (fun r => to_int64 (r + 1)) (eviction_row_id st).
Proof.
  intros (pid & _ & (r & evs & c & s & _ & N & H)%put_in_pool_Ret)%put_Ret.
  apply notify_frame in N as ((_ & N2 & N3) & Ni & Nw & k & Nk).
  cbn [with_cache pool_ids_ cache_config_ evicted_indices_ptr_
       evicted_weights_ptr_ eviction_row_id] in *.
  destruct r as [it|].
  - destruct H as (mem & evs' & c' & _ & _ & N' & _).
    apply notify_frame in N' as ((_ & M2 & M3) & Mi & Mw & k' & Mk).
    cbn [with_cache pool_ids_ cache_config_ evicted_indices_ptr_
         evicted_weights_ptr_ eviction_row_id] in *.
    repeat split; try congruence; auto.
    exists (k' + k)%nat. now rewrite <- iter_add, <- Nk.
  - destruct H as [_ ->]. repeat split; auto. now exists k.
Qed.

(** No call changes the pools or the configuration, no call unbinds a
    capture buffer, and no call other than [reset_eviction_states] does
    anything to the cursor but increment it. *)
Lemma perform_frame c st u st' :
  perform c st = Ret (u, st') ->
  pool_ids_ st' = pool_ids_ st /\ cache_config_ st' = cache_config_ st /\
  (evicted_indices_ptr_ st <> None -> evicted_indices_ptr_ st' <> None) /\
  (evicted_weights_ptr_ st <> None -> evicted_weights_ptr_ st' <> None) /\
  (c <> ResetEvictionStates ->
   exists k, eviction_row_id st'
             = Nat.iter k (fun r => to_int64 (r + 1)) (eviction_row_id st)).
Proof.
  destruct c as [key|key data|indices weights count junk| | |]; cbn [perform].
  - intros (r & s & (-> & _)%get_Ret & [= _ <-])%bind_Ret.
    repeat split; auto. intros _; now exists 0%nat.
  - intros (r & s & P%put_frame & [= _ <-])%bind_Ret.
    destruct P as (? & ? & ? & ? & ?). auto.
  - intros H. pose proof H as (m & w & _ & _ & B & Cur & _ & F2 & F3)%init_tensor_bound.
    unfold buffers_bound in B.
    destruct (evicted_indices_ptr_ st'); [|contradiction].
    destruct (evicted_weights_ptr_ st'); [|contradiction].
    repeat split; auto; try discriminate. intros _; now exists 0%nat.
  - intros [= _ <-]. repeat split; auto. intros N; now destruct N.
  - intros (r & s & H & [= _ <-])%bind_Ret.
    assert (s = st) as ->.
    { unfold get_evicted_indices_and_weights, bind, gets, ret, lift in H.
      destruct (evicted_indices_ptr_ st); [destruct (evicted_weights_ptr_ st)|];
        try discriminate; now injection H. }
    repeat split; auto. intros _; now exists 0%nat.
  - intros (r & s & [= _ <-] & [= _ <-])%bind_Ret.
    repeat split; auto. intros _; now exists 0%nat.
Qed.

(** An exception that the caller catches comes from
    [init_tensor_for_l2_eviction], which has then left everything as it
    was, but for a new key buffer when it has got as far as that. *)
Lemma caught_frame c st s :
  caught c st = Some s ->
  (exists what, perform c st = Fault (Thrown what)) /\
  cache_ s = cache_ st /\ pool_ids_ s = pool_ids_ st /\
  cache_config_ s = cache_config_ st /\
  eviction_row_id s = eviction_row_id st /\
  evicted_weights_ptr_ s = evicted_weights_ptr_ st /\
  (evicted_indices_ptr_ st <> None -> evicted_indices_ptr_ s <> None).
Proof.
  destruct c as [key|key data|indices weights count junk| | |];
    cbn [caught perform]; try discriminate.
  unfold init_tensor_for_l2_eviction_thrown, init_tensor_for_l2_eviction,
    bind, lift, modify.
  destruct (item_long count) as [n|[]]; try discriminate.
  2:{ intros [= <-]. repeat split; eauto. }
  destruct (ones_times_neg_one _ _) as [ti|[]]; try discriminate.
  2:{ intros [= <-]. repeat split; eauto. }
  destruct (size weights 1) as [w|[]]; cbn [obind]; try discriminate.
  2:{ intros [= <-]. repeat split; eauto. cbn. discriminate. }
  destruct (empty _ _ _ _) as [tw|[]]; try discriminate.
  intros [= <-]. repeat split; eauto. cbn. discriminate.
Qed.

Lemma run_frame cs :
  forall st u st',
    run cs st = Ret (u, st') ->
    pool_ids_ st' = pool_ids_ st /\ cache_config_ st' = cache_config_ st /\
    (evicted_indices_ptr_ st <> None -> evicted_indices_ptr_ st' <> None) /\
    (evicted_weights_ptr_ st <> None -> evicted_weights_ptr_ st' <> None).
Proof.
  induction cs as [|c cs IH]; intros st u st'.
  - intros [= _ <-]. auto.
  - cbn [run]. destruct (perform c st) as [[u1 s1]|f] eqn:P.
    + intros R%IH. apply perform_frame in P.
      destruct P as (P1 & P2 & P3 & P4 & _). destruct R as (R1 & R2 & R3 & R4).
      repeat split; try congruence; auto.
    + destruct (caught c st) as [s1|] eqn:C; [|discriminate].
      intros R%IH. apply caught_frame in C as (_ & _ & C1 & C2 & _ & C3 & C4).
      destruct R as (R1 & R2 & R3 & R4).
      repeat split; try congruence; auto.
      rewrite <- C3. exact R4.
Qed.

(** *** Properties that rest on the allocator's contract *)

Context {LL : LruAllocatorLaws L}.

(** Captures of items of any size that covers a row. *)

Lemma eviction_cb_capture_wide m w esz st data :
  buffers_bound m w st -> capture_types esz st ->
  context data = kEviction ->
  0 <= eviction_row_id st < m ->
  wide_item w esz (item data) ->
  exists st',
    eviction_cb data st = Ret (tt, st') /\
    eviction_row_id st' = eviction_row_id st + 1 /\
    buffers_bound m w st' /\ capture_types esz st' /\
    cache_ st' = cache_ st /\ pool_ids_ st' = pool_ids_ st /\
    cache_config_ st' = cache_config_ st /\
    captured_key st' (eviction_row_id st) = read_int64 (getKey (item data)) /\
    captured_row st' (eviction_row_id st)
    = Some (firstn (Z.to_nat (w * esz)) (getMemory (item data))) /\
    forall j, j <> eviction_row_id st ->
              captured_key st' j = captured_key st j /\
              captured_row st' j = captured_row st j.
Proof.
  unfold buffers_bound, capture_types, captured_key, captured_row.
  intros B T C R [K Mem].
  destruct (evicted_indices_ptr_ st) as [indices|] eqn:Ei; [|contradiction].
  destruct (evicted_weights_ptr_ st) as [weights|] eqn:Ew; [|contradiction].
  destruct B as (Si & Li & Sw & Lw & Rm & Rw). destruct T as [Ti Tw].
  destruct (dispatch_size _ _ Tw) as [Esz Pos].
  rewrite (eviction_cb_unfold _ _ _ _ Ei Ew), Tw, C.
  rewrite (data_ptr_int64_Long _ Ti). unfold size. rewrite Sw. cbn [nth_error of_option].
  assert (Ek : exists key, read_int64 (getKey (item data)) = Some key).
  { unfold read_int64. destruct (_ <? _)%nat eqn:E; [|eauto].
    apply Nat.ltb_lt in E. lia. }
  destruct Ek as [key Ek]. rewrite Ek.
  pose proof (read_int64_in_range _ _ Ek) as Rk.
  rewrite Ti in Li. cbn [elementSize] in Li.
  set (r := eviction_row_id st) in *.
  destruct (write_at_in_bounds (8 * r) (le_bytes 8 key) (storage indices))
    as [si Wi]; [lia | rewrite length_le_bytes; lia |].
  rewrite Wi.
  set (row := firstn (Z.to_nat (w * esz)) (getMemory (item data))).
  assert (Rd : read_at 0 (w * esz) (getMemory (item data)) = Some row).
  { apply read_at_Some. repeat split; lia. }
  rewrite Rd. pose proof (read_at_length _ _ _ _ Rd) as Lr.
  destruct (write_at_in_bounds (r * w * esz) row (storage weights))
    as [sw Ww]; [nia | rewrite Lw, Lr, <- Esz; nia |].
  rewrite Ww. eexists. split; [reflexivity|].
  cbn [captured_state eviction_row_id evicted_indices_ptr_ evicted_weights_ptr_
       cache_ pool_ids_ cache_config_ with_storage sizes storage scalar_type].
  rewrite (write_at_length _ _ _ _ Wi), (write_at_length _ _ _ _ Ww).
  rewrite Sw, Ti.
  split; [apply to_int64_id; unfold INT64_MIN, INT64_MAX in *; lia|].
  split; [repeat split; try assumption; try reflexivity; cbn [elementSize]; lia|].
  split; [split; [reflexivity|assumption]|].
  do 3 (split; [reflexivity|]).
  assert (Ro : r * w * esz = r * (w * elementSize (scalar_type weights)))
    by (rewrite <- Esz; ring).
  split; [|split].
  - unfold int64_at, with_storage. cbn [storage].
    pose proof (read_at_write_at_same _ _ _ _ Wi) as Rs.
    rewrite length_le_bytes in Rs. change (Z.of_nat 8) with 8 in Rs.
    rewrite Rs, read_int64_le_bytes, to_int64_id by assumption. reflexivity.
  - unfold row_at, with_storage. cbn [storage scalar_type].
    pose proof (read_at_write_at_same _ _ _ _ Ww) as Rs.
    rewrite Lr, Ro, Esz in Rs. exact Rs.
  - intros j Nj. split.
    + unfold int64_at, with_storage. cbn [storage].
      rewrite (read_at_write_at_other _ _ _ _ (8 * j) 8 Wi); [reflexivity|].
      rewrite length_le_bytes. lia.
    + unfold row_at, with_storage. cbn [storage scalar_type].
      rewrite (read_at_write_at_other _ _ _ _ _ _ Ww); [reflexivity|].
      rewrite Lr, Ro, <- Esz. nia.
Qed.

Lemma notify_capture_wide m w esz evs :
  forall st,
    buffers_bound m w st -> capture_types esz st ->
    0 <= eviction_row_id st ->
    eviction_row_id st + Z.of_nat (length (evictions evs)) <= m ->
    Forall (wide_item w esz) (evictions evs) ->
    exists st',
      notify evs st = Ret (tt, st') /\
      eviction_row_id st'
      = eviction_row_id st + Z.of_nat (length (evictions evs)) /\
      buffers_bound m w st' /\ capture_types esz st' /\
      cache_ st' = cache_ st /\ pool_ids_ st' = pool_ids_ st /\
      cache_config_ st' = cache_config_ st /\
      (forall i it,
          nth_error (evictions evs) i = Some it ->
          captured_key st' (eviction_row_id st + Z.of_nat i)
          = read_int64 (getKey it) /\
          captured_row st' (eviction_row_id st + Z.of_nat i)
          = Some (firstn (Z.to_nat (w * esz)) (getMemory it))) /\
      (forall j,
          j < eviction_row_id st \/
          eviction_row_id st + Z.of_nat (length (evictions evs)) <= j ->
          captured_key st' j = captured_key st j /\
          captured_row st' j = captured_row st j).
Proof.
  induction evs as [|d evs IH]; intros st B T R0 Rm Rows.
  - exists st. cbn [notify evictions filter map length Z.of_nat].
    rewrite Z.add_0_r. repeat split; auto.
    all: destruct i; discriminate.
  - cbn [notify]. rewrite evictions_cons in *.
    destruct (context d) eqn:C.
    + cbn [length] in *. rewrite Nat2Z.inj_succ in *.
      apply Forall_cons_iff in Rows as [Row Rows].
      destruct (eviction_cb_capture_wide m w esz st d B T C ltac:(lia) Row)
        as (s1 & E1 & Cur1 & B1 & T1 & F1 & F2 & F3 & K1 & W1 & O1).
      destruct (IH s1 B1 T1 ltac:(lia) ltac:(lia) Rows)
        as (s2 & E2 & Cur2 & B2 & T2 & G1 & G2 & G3 & In2 & Out2).
      exists s2. rewrite (bind_step _ _ _ _ _ E1).
      split; [exact E2|]. split; [lia|].
      do 2 (split; [assumption|]).
      do 3 (split; [congruence|]).
      split.
      * intros [|i] it Hi.
        -- injection Hi as <-. cbn [Z.of_nat]. rewrite Z.add_0_r.
           destruct (Out2 (eviction_row_id st) ltac:(lia)) as [-> ->].
           split; assumption.
        -- cbn [nth_error] in Hi. destruct (In2 i it Hi) as [A1 A2].
           rewrite Cur1 in A1, A2. rewrite Nat2Z.inj_succ.
           replace (eviction_row_id st + Z.succ (Z.of_nat i))
             with (eviction_row_id st + 1 + Z.of_nat i) by lia.
           split; assumption.
      * intros j Hj. destruct (Out2 j ltac:(lia)) as [-> ->].
        apply O1. lia.
    + destruct (IH st B T R0 Rm Rows) as (s2 & E2 & Rest).
      exists s2.
      rewrite (bind_step _ _ _ _ _ (eviction_cb_normal m w esz st d B T C)).
      split; [exact E2|exact Rest].
Qed.

Lemma evictions_all evs :
  Forall (fun d => context d = kEviction) evs -> evictions evs = map item evs.
Proof.
  induction 1 as [|d evs C _ IH]; [reflexivity|].
  rewrite evictions_cons, C, IH. reflexivity.
Qed.

Lemma notify_null d evs st :
  evicted_weights_ptr_ st = None -> notify (d :: evs) st = Fault NullDeref.
Proof.
  intros Null. cbn [notify]. apply bind_fault. now apply eviction_cb_null.
Qed.

(** What [put] does, step by step, in terms of what the allocator
    answers: the allocation from the pool of the key, the callbacks for
    the removals of the allocation, the copy of the row, the insertion,
    and the callbacks for the removals of the insertion. *)
Lemma put_outcome (st : CacheLibCache) (key : Z) (data : Tensor) (pid : PoolId) :
  get_pool_id key st = Ret (pid, st) ->
  tensor_ok data = true ->
  match allocate pid (StringPiece key) (nbytes data) (cache_ st) with
  | (None, _, c) =>
      put key data st = Ret (false, with_cache c st) /\
      forall k, peek k (cache_ (with_cache c st)) = peek k (cache_ st)
  | (Some _, evs, c) =>
      match notify evs (with_cache c st) with
      | Fault f => put key data st = Fault f
      | Ret (_, s) =>
          match insertOrReplace (row_entry key pid data) (cache_ s) with
          | (evs', c') =>
              match notify evs' (with_cache c' s) with
              | Fault f => put key data st = Fault f
              | Ret (_, s') =>
                  put key data st = Ret (true, s') /\
                  peek (StringPiece key) (cache_ s')
                  = Some (row_entry key pid data)
              end
          end
      end
  end.
Proof.
  intros Pool Ok. unfold put. rewrite (bind_step _ _ _ _ _ Pool).
  unfold put_in_pool, cache_allocate, bind, lift, ret.
  destruct (allocate _ _ _ _) as [[[it|] evs] c] eqn:A.
  - destruct (allocate_some _ _ _ _ _ _ _ A) as (Hk & Hp & Hn & _).
    destruct (notify evs _) as [[[] s]|f]; [|reflexivity].
    assert (Mc : memcpy (getMemory it) (storage data) (nbytes data)
                 = Ret (storage data)).
    { rewrite <- (tensor_ok_nbytes _ Ok). apply memcpy_whole.
      apply Nat2Z.inj. rewrite Hn. symmetry. now apply tensor_ok_nbytes. }
    rewrite Mc, Hk, Hp. fold (row_entry key pid data).
    unfold cache_insertOrReplace.
    pose proof (insert_peek (row_entry key pid data) (cache_ s)) as Pk.
    destruct (insertOrReplace _ _) as [evs' c']. cbn [snd] in Pk.
    destruct (notify evs' _) as [[[] s']|f] eqn:N; [|reflexivity].
    split; [reflexivity|].
    apply notify_frame in N as ((Nc & _) & _). cbn [with_cache cache_] in Nc.
    rewrite Nc. exact Pk.
  - destruct (allocate_none _ _ _ _ _ _ A) as [-> Same].
    cbn [notify ret]. split; [reflexivity|exact Same].
Qed.

(** C1, as the code has it.  [put] asks the pool of the key for room.
    When the allocator has none, [put] returns [false], nothing is
    inserted and every key reads as before.  When the allocator returns an
    item, the callback runs for every removal that the allocation and then
    the insertion report, and what [put] does depends on it: a fault of
    the callback is the outcome of [put], and when the callback returns,
    [put] returns [true] and the key reads as the entry with a copy of the
    bytes of the row.  So [put] returns [true] when nothing is removed,
    whatever buffers are bound, and when buffers of the expected types are
    bound that have room for the evictions; and with no weights buffer
    bound, a [put] that evicts or replaces dereferences an empty
    pointer. *)
Theorem put_reports_allocation_outcome
        (st : CacheLibCache) (key : Z) (data : Tensor) (pid : PoolId) :
  get_pool_id key st = Ret (pid, st) ->
  tensor_ok data = true ->
  match allocate pid (StringPiece key) (nbytes data) (cache_ st) with
  | (None, _, c) =>
      put key data st = Ret (false, with_cache c st) /\
      forall k, peek k (cache_ (with_cache c st)) = peek k (cache_ st)
  | (Some _, evs, c) =>
      match notify evs (with_cache c st) with
      | Fault f => put key data st = Fault f
      | Ret (_, s) =>
          match insertOrReplace (row_entry key pid data) (cache_ s) with
          | (evs', c') =>
              match notify evs' (with_cache c' s) with
              | Fault f => put key data st = Fault f
              | Ret (_, s') =>
                  put key data st = Ret (true, s') /\
                  peek (StringPiece key) (cache_ s')
                  = Some (row_entry key pid data)
              end
          end
      end /\
      (evs = [] ->
       fst (insertOrReplace (row_entry key pid data) c) = [] ->
       exists st',
         put key data st = Ret (true, st') /\
         peek (StringPiece key) (cache_ st') = Some (row_entry key pid data)) /\
      (forall m w esz,
          buffers_bound m w st -> capture_types esz st ->
          0 <= eviction_row_id st ->
          eviction_row_id st + Z.of_nat (length evs) <= m ->
          Forall (wide_item w esz) (map item evs) ->
          exists st',
            put key data st = Ret (true, st') /\
            peek (StringPiece key) (cache_ st')
            = Some (row_entry key pid data)) /\
      (evicted_weights_ptr_ st = None ->
       evs <> [] \/ fst (insertOrReplace (row_entry key pid data) c) <> [] ->
       put key data st = Fault NullDeref)
  end.
Proof.
  intros Pool Ok. pose proof (put_outcome st key data pid Pool Ok) as H.
  destruct (allocate _ _ _ _) as [[[it|] evs] c] eqn:A; [|exact H].
  destruct (allocate_some _ _ _ _ _ _ _ A) as (_ & _ & _ & AllEv).
  split; [exact H|]. split; [|split].
  - intros -> NoRep. cbn [notify ret] in H. cbn [with_cache cache_] in H.
    destruct (insertOrReplace _ c) as [evs' c']. cbn [fst] in NoRep. subst evs'.
    cbn [notify ret] in H. eauto.
  - intros m w esz B T R0 Rm Rows.
    rewrite <- (evictions_all _ AllEv) in Rows.
    rewrite <- (length_map item), <- (evictions_all _ AllEv) in Rm.
    destruct (notify_capture_wide m w esz evs (with_cache c st) B T R0 Rm Rows)
      as (s & N & _ & _ & T1 & _).
    rewrite N in H.
    pose proof (insert_events (row_entry key pid data) (cache_ s)) as Ev.
    destruct (insertOrReplace _ (cache_ s)) as [evs' c']. cbn [fst] in Ev.
    rewrite (notify_normal esz evs' (with_cache c' s) T1 Ev) in H. eauto.
  - intros Null [Ne|Ne].
    + destruct evs as [|d evs]; [contradiction|].
      now rewrite (notify_null d evs (with_cache c st) Null) in H.
    + destruct evs as [|d evs].
      * cbn [notify ret] in H. cbn [with_cache cache_] in H.
        destruct (insertOrReplace _ c) as [[|d evs'] c']; [contradiction|].
        now rewrite (notify_null d evs' (with_cache c' (with_cache c st)) Null)
          in H.
      * now rewrite (notify_null d evs (with_cache c st) Null) in H.
Qed.

(** C5.  After a [put] that returned [true], [get] of the same key
    returns the bytes of the row. *)
Theorem put_then_get_round_trip
        (st st' : CacheLibCache) (key : Z) (data : Tensor) :
  put key data st = Ret (true, st') ->
  tensor_ok data = true ->
  exists st'', get key st' = Ret (Some (storage data), st'').
Proof.
  intros (pid & _ & (r & evs & c & s & A & _ & H)%put_in_pool_Ret)%put_Ret Ok.
  destruct r as [it|]; [|now destruct H].
  destruct H as (mem & evs' & c' & Mc & Ins & N & _).
  destruct (allocate_some _ _ _ _ _ _ _ A) as (Hk & _ & Hn & _).
  assert (Mc' : memcpy (getMemory it) (storage data) (nbytes data)
                = Ret (storage data)).
  { rewrite <- (tensor_ok_nbytes _ Ok). apply memcpy_whole.
    apply Nat2Z.inj. rewrite Hn. symmetry. now apply tensor_ok_nbytes. }
  rewrite Mc' in Mc. injection Mc as <-.
  apply notify_frame in N as ((Nc & _) & _). cbn [with_cache cache_] in Nc.
  pose proof (insert_peek {| getKey := getKey it; getPoolId := getPoolId it;
                             getMemory := storage data |} (cache_ s)) as Pk.
  rewrite Ins in Pk. cbn [snd getKey] in Pk. rewrite Hk in Pk.
  eexists. apply get_Ret. split; [reflexivity|].
  rewrite Nc, find_peek, Pk. reflexivity.
Qed.

(** C2, as the code has it.  With capture buffers of [m] rows of the
    expected types bound, a sequence of removals whose evictions fit under
    the cursor and are each at least one row wide runs the callback to
    completion.  The cursor advances by the number of evictions: one
    capture per eviction, none for any other removal.  At each removal of
    the sequence, a removal that is not an eviction leaves the object as it
    is, and an eviction takes the slot under the cursor, advances the
    cursor by one, and stores the key in that slot of the key buffer and
    the first row width of the evicted bytes at that row of the weights
    buffer.  At the end, the slots from the old cursor on hold the keys of
    the evictions in order and the first row width of their bytes, which
    is all of their bytes for an item of one row.  This is what happens
    inside [put]: the evictions that its allocation reports are captured in
    this way before it returns, a [put] whose allocation evicts nothing
    captures nothing, whether it replaces an entry or not, and neither does
    a [put] whose allocation fails. *)
Theorem eviction_capture_complete (m w esz : Z) (st : CacheLibCache) :
  buffers_bound m w st -> capture_types esz st ->
  0 <= eviction_row_id st ->
  (forall evs,
      eviction_row_id st + Z.of_nat (length (evictions evs)) <= m ->
      Forall (wide_item w esz) (evictions evs) ->
      exists st',
        notify evs st = Ret (tt, st') /\
        eviction_row_id st'
        = eviction_row_id st + Z.of_nat (length (evictions evs)) /\
        (forall pre data post,
            evs = pre ++ data :: post ->
            exists s1 s2,
              notify pre st = Ret (tt, s1) /\
              eviction_cb data s1 = Ret (tt, s2) /\
              notify post s2 = Ret (tt, st') /\
              match context data with
              | kNormal => s2 = s1
              | kEviction =>
                  let row_id := eviction_row_id s1 in
                  row_id
                  = eviction_row_id st + Z.of_nat (length (evictions pre)) /\
                  eviction_row_id s2 = row_id + 1 /\
                  captured_key s2 row_id = read_int64 (getKey (item data)) /\
                  captured_row s2 row_id
                  = Some (firstn (Z.to_nat (w * esz)) (getMemory (item data)))
              end) /\
        (forall i it,
            nth_error (evictions evs) i = Some it ->
            captured_key st' (eviction_row_id st + Z.of_nat i)
            = read_int64 (getKey it) /\
            captured_row st' (eviction_row_id st + Z.of_nat i)
            = Some (firstn (Z.to_nat (w * esz)) (getMemory it)) /\
            (Z.of_nat (length (getMemory it)) = w * esz ->
             captured_row st' (eviction_row_id st + Z.of_nat i)
             = Some (getMemory it)))) /\
  (forall key data pid,
      get_pool_id key st = Ret (pid, st) ->
      tensor_ok data = true ->
      match allocate pid (StringPiece key) (nbytes data) (cache_ st) with
      | (None, _, c) => put key data st = Ret (false, with_cache c st)
      | (Some _, evs, _) =>
          eviction_row_id st + Z.of_nat (length evs) <= m ->
          Forall (wide_item w esz) (map item evs) ->
          exists st',
            put key data st = Ret (true, st') /\
            eviction_row_id st' = eviction_row_id st + Z.of_nat (length evs) /\
            (forall i d,
                nth_error evs i = Some d ->
                captured_key st' (eviction_row_id st + Z.of_nat i)
                = read_int64 (getKey (item d)) /\
                captured_row st' (eviction_row_id st + Z.of_nat i)
                = Some (firstn (Z.to_nat (w * esz)) (getMemory (item d)))) /\
            (forall j,
                j < eviction_row_id st \/
                eviction_row_id st + Z.of_nat (length evs) <= j ->
                captured_key st' j = captured_key st j /\
                captured_row st' j = captured_row st j)
      end).
Proof.
  intros B T R0. split.
  - intros evs Len Rows.
    destruct (notify_capture_wide m w esz evs st B T R0 Len Rows)
      as (st' & E & Cur & _ & _ & _ & _ & _ & In & _).
    exists st'. split; [exact E|]. split; [exact Cur|]. split.
    + intros pre data post ->.
      rewrite evictions_app, evictions_cons in Len, Rows.
      apply Forall_app in Rows as [RowsPre RowsRest].
      rewrite length_app in Len.
      destruct (notify_capture_wide m w esz pre st B T R0 ltac:(lia) RowsPre)
        as (s1 & E1 & Cur1 & B1 & T1 & _).
      rewrite notify_app, (bind_step _ _ _ _ _ E1) in E. cbn [notify] in E.
      exists s1. destruct (context data) eqn:C.
      * apply Forall_cons_iff in RowsRest as [Row _]. cbn [length] in Len.
        destruct (eviction_cb_capture_wide m w esz s1 data B1 T1 C
                    ltac:(lia) Row)
          as (s2 & E2 & Cur2 & _ & _ & _ & _ & _ & K2 & W2 & _).
        rewrite (bind_step _ _ _ _ _ E2) in E.
        exists s2. repeat split; assumption.
      * pose proof (eviction_cb_normal m w esz s1 data B1 T1 C) as E2.
        rewrite (bind_step _ _ _ _ _ E2) in E.
        exists s1. repeat split; assumption.
    + intros i it Hi. destruct (In i it Hi) as [A1 A2].
      split; [assumption|]. split; [assumption|].
      intros Whole. rewrite A2. f_equal. apply firstn_all2. lia.
  - intros key data pid Pool Ok.
    pose proof (put_outcome st key data pid Pool Ok) as H.
    destruct (allocate _ _ _ _) as [[[it|] evs] c] eqn:A; [|exact (proj1 H)].
    destruct (allocate_some _ _ _ _ _ _ _ A) as (_ & _ & _ & AllEv).
    intros Rm Rows.
    pose proof (evictions_all _ AllEv) as Ee.
    rewrite <- Ee in Rows. rewrite <- (length_map item), <- Ee in Rm.
    destruct (notify_capture_wide m w esz evs (with_cache c st) B T R0 Rm Rows)
      as (s & N & Cur & _ & T1 & _ & _ & _ & In & Out).
    rewrite N in H.
    pose proof (insert_events (row_entry key pid data) (cache_ s)) as Ev.
    destruct (insertOrReplace _ (cache_ s)) as [evs' c']. cbn [fst] in Ev.
    rewrite (notify_normal esz evs' (with_cache c' s) T1 Ev) in H.
    rewrite Ee, length_map in Cur, Out.
    exists (with_cache c' s). split; [exact (proj1 H)|].
    split; [exact Cur|]. split; [|exact Out].
    intros i d Hi. apply (In i (item d)).
    rewrite Ee. now apply map_nth_error.
Qed.

(** C8.  The shard index of a key depends on the key and on the number of
    pools only, and no call changes the pools: the index is the same
    after any sequence of calls, the call itself changes nothing, and the
    index is below the number of pools.  [put] allocates from the pool at
    that index: what it does is decided by what the allocator answers to
    the allocation from this pool of room for the row under the key.  When
    this pool has no room, [put] returns [false] with the allocator as
    this allocation has left it; and when it has, the removals that this
    allocation reports are those handed to the callback, and the entry
    that [put] inserts, and that the key reads as when [put] returns
    [true], belongs to this pool. *)
Theorem shard_routing_is_stable
        (st st' : CacheLibCache) (key : Z) (i : Z) :
  get_shard_id key st = Ret (i, st') ->
  st' = st /\
  0 <= i < Z.of_nat (length (pool_ids_ st)) /\
  (forall cs s, run cs st = Ret (tt, s) -> get_shard_id key s = Ret (i, s)) /\
  exists pid,
    nth_error (pool_ids_ st) (Z.to_nat i) = Some pid /\
    (forall data s,
        put key data st = Ret (true, s) ->
        exists it, peek (StringPiece key) (cache_ s) = Some it /\
                   getPoolId it = pid) /\
    (forall data,
        tensor_ok data = true ->
        match allocate pid (StringPiece key) (nbytes data) (cache_ st) with
        | (None, _, c) => put key data st = Ret (false, with_cache c st)
        | (Some _, evs, c) =>
            match notify evs (with_cache c st) with
            | Fault f => put key data st = Fault f
            | Ret (_, s) =>
                match insertOrReplace (row_entry key pid data) (cache_ s) with
                | (evs', c') =>
                    match notify evs' (with_cache c' s) with
                    | Fault f => put key data st = Fault f
                    | Ret (_, s') =>
                        put key data st = Ret (true, s') /\
                        cache_ s' = c' /\
                        peek (StringPiece key) (cache_ s')
                        = Some (row_entry key pid data)
                    end
                end
            end
        end).
Proof.
  intros E. pose proof E as R%get_shard_id_range.
  pose proof E as (-> & Ne & Ei)%get_shard_id_Ret.
  split; [reflexivity|]. split; [assumption|]. split.
  - intros cs s (Hp & _)%run_frame. apply get_shard_id_Ret.
    rewrite Hp. auto.
  - destruct (get_shard_id_has_pool _ _ _ E) as (pid & En & Ep).
    exists pid. split; [assumption|]. split.
    + intros data s.
      assert (Eq : put key data st = put_in_pool pid key data st).
      { unfold put. now rewrite (bind_step _ _ _ _ _ Ep). }
      rewrite Eq.
      intros (r & evs & c & s1 & A & _ & H)%put_in_pool_Ret.
      destruct r as [it|]; [|now destruct H].
      destruct H as (mem & evs' & c' & _ & Ins & N & _).
      destruct (allocate_some _ _ _ _ _ _ _ A) as (Hk & Hp & _).
      apply notify_frame in N as ((Nc & _) & _). cbn [with_cache cache_] in Nc.
      pose proof (insert_peek {| getKey := getKey it; getPoolId := getPoolId it;
                                 getMemory := mem |} (cache_ s1)) as Pk.
      rewrite Ins in Pk. cbn [snd getKey] in Pk. rewrite Hk in Pk.
      eexists. rewrite Nc. split; [exact Pk|]. exact Hp.
    + intros data Ok.
      pose proof (put_outcome st key data pid Ep Ok) as H.
      destruct (allocate _ _ _ _) as [[[it|] evs] c]; [|exact (proj1 H)].
      destruct (notify evs _) as [[[] s]|f]; [|exact H].
      destruct (insertOrReplace _ _) as [evs' c'].
      destruct (notify evs' _) as [[[] s']|f] eqn:N; [|exact H].
      apply notify_frame in N as ((Nc & _) & _).
      destruct H as [H1 H2]. repeat split; assumption.
Qed.

(** *** Usage *)

Lemma fold_free_exact (c : Cache) (ids : list PoolId) :
  forall acc,
    0 <= acc ->
    (forall p, In p ids -> 0 <= freeMemoryBytes p c) ->
    acc + sum_free c ids <= INT64_MAX ->
    fold_left
      (fun a pool_id =>
         to_int64 (to_uint64 a + to_uint64 (freeMemoryBytes pool_id c)))
      ids acc
    = acc + sum_free c ids.
Proof.
  induction ids as [|p ids IH]; intros acc Pa Pf Fit; cbn [fold_left sum_free map fold_right] in *.
  - lia.
  - assert (Pp : 0 <= freeMemoryBytes p c) by (apply Pf; now left).
    assert (Ps : 0 <= sum_free c ids).
    { clear -Pf. induction ids as [|q ids IH]; cbn [sum_free map fold_right]; [lia|].
      assert (0 <= freeMemoryBytes q c) by (apply Pf; right; now left).
      assert (0 <= sum_free c ids).
      { apply IH. intros r [->|Hr]; apply Pf; [now left|right; now right]. }
      unfold sum_free in *. lia. }
    unfold sum_free in *.
    rewrite !to_uint64_id by lia.
    rewrite to_int64_id by (unfold INT64_MIN; lia).
    rewrite IH; try lia. intros q Hq. apply Pf. now right.
Qed.

Lemma new_CacheLibCache_config size num_shards st :
  new_CacheLibCache size num_shards = Ret st ->
  cache_config_ st = {| cacheSizeBytes := to_uint64 size |}.
Proof.
  unfold new_CacheLibCache.
  destruct (initializeCacheLib _); [|discriminate]. cbn [obind].
  destruct (add_pools _ _ _); [|discriminate]. cbn [obind].
  destruct (INT_MAX <? num_shards); [discriminate|]. now intros [= <-].
Qed.

(** C6.  In a state reached from the construction with capacity [size]
    by any sequence of calls, [get_cache_usage] returns two values, the
    sum of the free bytes of the pools and [size], and leaves the object
    as it is; so the second value is the same in every such state.  The
    two values are [int64_t]: the byte counts are taken to fit. *)
Theorem cache_usage_reports_free_and_capacity
        (size num_shards : Z) (st0 st : CacheLibCache) (cs : list call) :
  new_CacheLibCache size num_shards = Ret st0 ->
  run cs st0 = Ret (tt, st) ->
  0 <= size <= INT64_MAX ->
  (forall p, In p (pool_ids_ st) -> 0 <= freeMemoryBytes p (cache_ st)) ->
  sum_free (cache_ st) (pool_ids_ st) <= INT64_MAX ->
  get_cache_usage st
  = Ret ([sum_free (cache_ st) (pool_ids_ st); size], st).
Proof.
  intros New Run Rs Pf Fit.
  apply new_CacheLibCache_config in New.
  apply run_frame in Run as (_ & Cfg & _).
  unfold get_cache_usage, bind, gets, ret.
  rewrite fold_free_exact by (assumption || lia).
  rewrite Cfg, New. cbn [cacheSizeBytes]. rewrite to_uint64_id by assumption.
  rewrite to_int64_id by (unfold INT64_MIN; lia). reflexivity.
Qed.

(** *** Fresh buffers *)

Lemma read_at_concat_repeat (bs : list byte) (n : nat) (i : Z) :
  0 <= i < Z.of_nat n ->
  read_at (i * Z.of_nat (length bs)) (Z.of_nat (length bs))
    (concat (repeat bs n)) = Some bs.
Proof.
  intros R.
  replace n with (Z.to_nat i + S (n - 1 - Z.to_nat i))%nat by lia.
  rewrite repeat_app, concat_app. cbn [repeat concat].
  apply read_at_Some.
  rewrite !length_app, !length_concat_repeat.
  repeat split; try nia.
  rewrite Nat2Z.id.
  replace (Z.to_nat (i * Z.of_nat (length bs)))
    with (length (concat (repeat bs (Z.to_nat i))) + 0)%nat
    by (rewrite length_concat_repeat; nia).
  rewrite skipn_app, skipn_all2 by lia.
  replace (_ + 0 - _)%nat with 0%nat by lia. cbn [skipn app].
  rewrite firstn_app, Nat.sub_diag, firstn_all. cbn [firstn].
  now rewrite app_nil_r.
Qed.

Lemma sentinel_slots (dt : ScalarType) (n i : Z) :
  0 <= i < n ->
  read_at (i * elementSize dt) (elementSize dt)
    (concat (repeat (neg_one_bytes dt) (Z.to_nat n)))
  = Some (neg_one_bytes dt).
Proof.
  intros Ri. rewrite <- length_neg_one_bytes.
  apply read_at_concat_repeat. lia.
Qed.

Lemma sentinel_int64 (t : Tensor) (n i : Z) :
  storage t = concat (repeat (neg_one_bytes kLong) (Z.to_nat n)) ->
  0 <= i < n -> int64_at t i = Some (-1).
Proof.
  intros E Ri. unfold int64_at. rewrite E.
  pose proof (sentinel_slots kLong n i Ri) as Slot.
  cbn [elementSize] in Slot. rewrite Z.mul_comm, Slot. reflexivity.
Qed.

(** C7.  For a count [n] that is not negative and weights whose rows have
    [w] elements, [init_tensor_for_l2_eviction] returns and binds two
    buffers, which [get_evicted_indices_and_weights] then returns: a key
    buffer of the scalar type of [indices] with [n] slots that each hold
    the image of [-1] in that type, which reads as [-1] when the keys are
    64-bit integers, and a weights buffer of the scalar type of [weights]
    of [n] rows of [w] elements whose contents are the indeterminate ones
    of the fresh block. *)
Theorem init_tensor_binds_fresh_buffers
        (indices weights count : Tensor) (junk : nat -> byte)
        (st : CacheLibCache) (n w : Z) :
  item_long count = Ret n -> 0 <= n ->
  size weights 1 = Ret w -> 0 <= w ->
  exists st' keys rows,
    init_tensor_for_l2_eviction indices weights count junk st = Ret (tt, st') /\
    get_evicted_indices_and_weights st' = Ret (Some (keys, rows), st') /\
    scalar_type keys = scalar_type indices /\
    sizes keys = [n] /\
    (forall i, 0 <= i < n ->
               read_at (i * elementSize (scalar_type indices))
                 (elementSize (scalar_type indices)) (storage keys)
               = Some (neg_one_bytes (scalar_type indices))) /\
    (scalar_type indices = kLong ->
     forall i, 0 <= i < n -> int64_at keys i = Some (-1)) /\
    scalar_type rows = scalar_type weights /\
    sizes rows = [n; w] /\
    storage rows
    = map junk (seq 0 (Z.to_nat (n * w * elementSize (scalar_type weights)))).
Proof.
  intros En Pn Ew Pw.
  assert (Sw : nth_error (sizes weights) 1 = Some w).
  { unfold size in Ew. destruct (nth_error _ _); [|discriminate].
    now injection Ew as <-. }
  eexists _, _, _. split.
  - apply init_tensor_Ret. exists n, w. eexists _, _.
    unfold ones_times_neg_one, empty.
    replace (n <? 0) with false by (symmetry; apply Z.ltb_ge; assumption).
    replace (w <? 0) with false by (symmetry; apply Z.ltb_ge; assumption).
    cbn [orb]. repeat split; try reflexivity; assumption.
  - split; [reflexivity|]. cbn [scalar_type sizes storage].
    repeat split; try reflexivity.
    + intros i Ri. now apply sentinel_slots.
    + intros Long i Ri. apply (sentinel_int64 _ n); [|assumption].
      cbn [storage]. now rewrite Long.
Qed.

(** *** Cycles *)


(** After [init_tensor_for_l2_eviction] with keys of 64-bit integers and
    weights the dispatch accepts, the buffers have the types the callback
    expects and every slot of the key buffer reads as [-1]. *)
Lemma init_tensor_ready indices weights count junk st u st' m esz :
  init_tensor_for_l2_eviction indices weights count junk st = Ret (u, st') ->
  item_long count = Ret m ->
  scalar_type indices = kLong ->
  dispatch_float_half_and_byte (scalar_type weights) = Ret esz ->
  capture_types esz st' /\
  forall i, 0 <= i < m -> captured_key st' i = Some (-1).
Proof.
  intros (m' & w & ti & tw & Em & Pm & Ew & Pw & Ti & Tw & ->)%init_tensor_Ret
         Em' Long Disp.
  assert (m' = m) by congruence. subst m'.
  unfold ones_times_neg_one, empty in Ti, Tw.
  replace (m <? 0) with false in * by (symmetry; apply Z.ltb_ge; assumption).
  replace (w <? 0) with false in * by (symmetry; apply Z.ltb_ge; assumption).
  cbn [orb] in Tw. injection Ti as <-. injection Tw as <-.
  unfold capture_types, captured_key.
  cbn [with_weights with_indices evicted_indices_ptr_ evicted_weights_ptr_
       scalar_type].
  split; [split; assumption|].
  intros i Ri. apply (sentinel_int64 _ m); [|assumption].
  cbn [storage]. now rewrite Long.
Qed.



(** *** Construction *)

(** C4, as the constructor has it.  The constructor checks neither the
    capacity nor the number of shards.  It fails when the allocator
    rejects the capacity, with the allocator's error; and with a number
    of shards that is not positive and a capacity the allocator accepts,
    it adds no pool and returns an object without pools. *)
Theorem construction_checks_only_the_allocator (size num_shards : Z) :
  (forall f,
      newCache (to_uint64 size) = Fault f ->
      new_CacheLibCache size num_shards = Fault f) /\
  (forall cache,
      num_shards <= 0 ->
      newCache (to_uint64 size) = Ret cache ->
      new_CacheLibCache size num_shards
      = Ret {| cache_config_ := {| cacheSizeBytes := to_uint64 size |};
               cache_ := cache;
               admin_ := createCacheAdmin cache;
               pool_ids_ := [];
               evicted_indices_ptr_ := declared_evicted_indices_ptr_;
               evicted_weights_ptr_ := declared_evicted_weights_ptr_;
               eviction_row_id := declared_eviction_row_id |}).
Proof.
  unfold new_CacheLibCache, initializeCacheLib. cbn [cacheSizeBytes].
  rewrite to_uint64_idem. split.
  - now intros f ->.
  - intros cache Le ->. cbn [obind].
    replace (Z.to_nat (Z.min num_shards (INT_MAX + 1))) with 0%nat
      by (unfold INT_MAX; lia).
    cbn [seq map add_pools obind fst snd].
    replace (INT_MAX <? num_shards) with false
      by (symmetry; apply Z.ltb_ge; unfold INT_MAX; lia).
    reflexivity.
Qed.

End Properties.

(* ================================================================== *)
(** ** The reference allocator meets the contract *)

Lemma bytes_eqb_eq (a b : list byte) : RefLru.bytes_eqb a b = true <-> a = b.
Proof.
  revert b. induction a as [|x a IH]; intros [|y b]; cbn [RefLru.bytes_eqb];
    try (split; (discriminate || reflexivity)).
  rewrite andb_true_iff, IH. split.
  - intros [E ->]. apply Byte.byte_dec_bl in E. now subst.
  - intros [= -> ->]. split; [|reflexivity]. now apply Byte.byte_dec_lb.
Qed.

Lemma find_without (k k' : list byte) (l : list Item) :
  k' <> k ->
  List.find (RefLru.has_key k') (RefLru.without k l)
  = List.find (RefLru.has_key k') l.
Proof.
  intros Ne. unfold RefLru.without.
  induction l as [|x l IH]; [reflexivity|]. cbn [filter List.find].
  destruct (RefLru.has_key k x) eqn:Hk; cbn [negb].
  - destruct (RefLru.has_key k' x) eqn:Hk'; [|exact IH].
    apply bytes_eqb_eq in Hk, Hk'. congruence.
  - cbn [List.find]. destruct (RefLru.has_key k' x); [reflexivity|exact IH].
Qed.

Lemma RefLru_laws : LruAllocatorLaws RefLruAllocator.
Proof.
  constructor; cbn [find peek allocate insertOrReplace RefLruAllocator].
  - intros k c. unfold RefLru.touch. now destruct (RefLru.lookup k c).
  - intros k k' c. unfold RefLru.touch.
    destruct (RefLru.lookup k c) as [it|] eqn:E; [|reflexivity].
    unfold RefLru.lookup in *. cbn [snd RefLru.items List.find].
    pose proof E as [_ Hk]%find_some.
    destruct (RefLru.has_key k' it) eqn:Hk'.
    + apply bytes_eqb_eq in Hk, Hk'. rewrite <- Hk', Hk. now rewrite E.
    + apply find_without. intros ->. congruence.
  - intros p k n c evs c'. unfold RefLru.alloc.
    destruct (RefLru.poolSize p c); [|intros [= <- <-]; auto].
    destruct (_ || _); [intros [= <- <-]; auto|].
    destruct (RefLru.evict _ _ _). discriminate.
  - intros p k n c h evs c'. unfold RefLru.alloc.
    destruct (RefLru.poolSize p c); [|discriminate].
    destruct (_ || _) eqn:E; [discriminate|].
    destruct (RefLru.evict _ _ _) as [ev keep]. intros [= <- <- <-].
    cbn [getKey getPoolId getMemory]. unbool.
    rewrite repeat_length. repeat split; try lia.
    apply Forall_forall. intros d (it & <- & _)%in_map_iff. reflexivity.
  - intros h c. unfold RefLru.insert, RefLru.lookup.
    cbn [snd RefLru.items List.find]. unfold RefLru.has_key at 1.
    now rewrite (proj2 (bytes_eqb_eq _ _) eq_refl).
  - intros h c. unfold RefLru.insert. cbn [fst].
    destruct (RefLru.lookup _ _); repeat constructor.
Qed.

(* ================================================================== *)
(** ** The statements at work on the reference allocator *)

(** The constructor rejects a capacity of zero only because the allocator
    does, and it accepts zero shards: the rule that zero shards or a
    capacity that is not positive fails at construction does not hold. *)
Lemma zero_shards_are_not_rejected :
  ~ (forall size num_shards,
        num_shards = 0 \/ size <= 0 ->
        exists f, @new_CacheLibCache RefLruAllocator Example.externals
                    size num_shards = Fault f).
Proof.
  intros H. destruct (H 16 0 (or_introl eq_refl)) as [f E].
  discriminate E.
Qed.

Lemma construction_checks_only_the_allocator_witness :
  @new_CacheLibCache RefLruAllocator Example.externals 16 0
  = Ret {| cache_config_ := {| cacheSizeBytes := 16 |};
           cache_ := ({| RefLru.ram := 16; RefLru.pools := [];
                         RefLru.items := [] |} : @Cache RefLruAllocator);
           admin_ := {| oncall := "mvai"%string |};
           pool_ids_ := [];
           evicted_indices_ptr_ := None;
           evicted_weights_ptr_ := None;
           eviction_row_id := 0 |}.
Proof.
  apply (proj2 (@construction_checks_only_the_allocator
                  RefLruAllocator Example.externals 16 0)).
  - lia.
  - reflexivity.
Defined.

Lemma ready_is_bound : @buffers_bound RefLruAllocator 3 4 Example.ready.
Proof. vm_compute. repeat split; try reflexivity; discriminate. Qed.

Lemma ready_has_types : @capture_types RefLruAllocator 1 Example.ready.
Proof. vm_compute. split; reflexivity. Qed.

Lemma full_is_bound : @buffers_bound RefLruAllocator 3 4 Example.full.
Proof. vm_compute. repeat split; try reflexivity; discriminate. Qed.

Lemma full_has_types : @capture_types RefLruAllocator 1 Example.full.
Proof. vm_compute. split; reflexivity. Qed.

(** Under pressure: shard 0 is full, so a third row evicts the least
    recently used one, and its key and bytes show up in slot 0. *)
Lemma put_under_pressure_captures_the_victim :
  exists st',
    @put RefLruAllocator Example.externals 4 (Example.row x03) Example.full
    = Ret (true, st') /\
    eviction_row_id st' = 1 /\
    captured_key st' 0 = Some 0 /\
    captured_row st' 0 = Some [x01; x01; x01; x01] /\
    @peek RefLruAllocator (StringPiece 0) (cache_ st') = None.
Proof.
  eexists. split; [vm_compute; reflexivity|]. repeat split.
Qed.

(** A [put] for which the allocator has room does not always return
    [true]: with no capture buffer bound, a [put] that replaces the entry
    of its key ends in the dereference of an empty pointer. *)
Lemma a_replacing_put_can_fault :
  ~ (forall (st : @CacheLibCache RefLruAllocator) key data pid it evs c,
        @get_pool_id RefLruAllocator Example.externals key st = Ret (pid, st) ->
        tensor_ok data = true ->
        @allocate RefLruAllocator pid (StringPiece key) (nbytes data) (cache_ st)
        = (Some it, evs, c) ->
        exists st',
          @put RefLruAllocator Example.externals key data st = Ret (true, st')).
Proof.
  intros H.
  destruct (H (Example.exec
                 (@put RefLruAllocator Example.externals 0 (Example.row x01))
                 Example.fresh)
              0 (Example.row x05) 0 _ _ _ eq_refl eq_refl eq_refl) as [st' E].
  discriminate E.
Qed.

Lemma put_reports_allocation_outcome_witness :
  @put RefLruAllocator Example.externals 0 Example.wide_row Example.ready
  = Ret (false, Example.ready) /\
  (exists st',
      @put RefLruAllocator Example.externals 4 (Example.row x03) Example.full
      = Ret (true, st') /\
      @peek RefLruAllocator (StringPiece 4) (cache_ st')
      = Some (row_entry 4 0 (Example.row x03))) /\
  (exists st',
      @put RefLruAllocator Example.externals 0 (Example.row x01) Example.fresh
      = Ret (true, st')) /\
  @put RefLruAllocator Example.externals 0 (Example.row x05)
    (Example.exec (@put RefLruAllocator Example.externals 0 (Example.row x01))
       Example.fresh)
  = Fault NullDeref.
Proof.
  split; [|split; [|split]].
  - exact (proj1 (@put_reports_allocation_outcome
                    RefLruAllocator Example.externals RefLru_laws
                    Example.ready 0 Example.wide_row 0 eq_refl eq_refl)).
  - apply (proj1 (proj2 (proj2
             (@put_reports_allocation_outcome
                RefLruAllocator Example.externals RefLru_laws
                Example.full 4 (Example.row x03) 0 eq_refl eq_refl))) 3 4 1).
    + exact full_is_bound.
    + exact full_has_types.
    + vm_compute. discriminate.
    + vm_compute. discriminate.
    + repeat constructor; vm_compute; discriminate.
  - destruct (proj1 (proj2
               (@put_reports_allocation_outcome
                  RefLruAllocator Example.externals RefLru_laws
                  Example.fresh 0 (Example.row x01) 0 eq_refl eq_refl))
               eq_refl eq_refl) as (st' & E & _).
    exists st'. exact E.
  - apply (proj2 (proj2 (proj2
             (@put_reports_allocation_outcome
                RefLruAllocator Example.externals RefLru_laws
                (Example.exec
                   (@put RefLruAllocator Example.externals 0 (Example.row x01))
                   Example.fresh)
                0 (Example.row x05) 0 eq_refl eq_refl)))).
    + reflexivity.
    + right. vm_compute. discriminate.
Defined.

Lemma one_is_bound : @buffers_bound RefLruAllocator 3 4 Example.one.
Proof. vm_compute. repeat split; try reflexivity; discriminate. Qed.

Lemma one_has_types : @capture_types RefLruAllocator 1 Example.one.
Proof. vm_compute. split; reflexivity. Qed.

(** The row buffer does not always receive the evicted bytes: of an
    evicted item of six bytes, buffers with rows of four receive four. *)
Lemma a_wide_row_is_captured_in_part :
  ~ (forall m w esz (st : @CacheLibCache RefLruAllocator) data,
        buffers_bound m w st -> capture_types esz st ->
        0 <= eviction_row_id st < m ->
        context data = kEviction ->
        exists st',
          eviction_cb data st = Ret (tt, st') /\
          captured_row st' (eviction_row_id st)
          = Some (getMemory (item data))).
Proof.
  intros H.
  destruct (H 3 4 1 Example.ready
              {| context := kEviction; item := Example.long_entry |}
              ready_is_bound ready_has_types
              ltac:(vm_compute; split; [discriminate|reflexivity])
              eq_refl) as (st' & E & R).
  assert (S : st' = Example.exec
                      (eviction_cb {| context := kEviction;
                                      item := Example.long_entry |})
                      Example.ready).
  { unfold Example.exec. now rewrite E. }
  subst st'. vm_compute in R. discriminate R.
Qed.

Lemma eviction_capture_complete_witness :
  (exists st',
      @notify RefLruAllocator Example.removals Example.full = Ret (tt, st') /\
      eviction_row_id st' = 2 /\
      captured_key st' 0 = Some 7 /\
      captured_key st' 1 = Some 9 /\
      captured_row st' 1 = Some [x03; x03; x03; x03]) /\
  (exists st',
      @put RefLruAllocator Example.externals 4 (Example.row x03) Example.full
      = Ret (true, st') /\
      eviction_row_id st' = 1 /\
      captured_key st' 0 = Some 0 /\
      captured_row st' 0 = Some [x01; x01; x01; x01]) /\
  (exists st',
      @put RefLruAllocator Example.externals 0 (Example.row x05) Example.one
      = Ret (true, st') /\
      eviction_row_id st' = 0).
Proof.
  destruct (@eviction_capture_complete RefLruAllocator Example.externals
              RefLru_laws 3 4 1 Example.full
              full_is_bound full_has_types ltac:(vm_compute; discriminate))
    as [N P].
  destruct (@eviction_capture_complete RefLruAllocator Example.externals
              RefLru_laws 3 4 1 Example.one
              one_is_bound one_has_types ltac:(vm_compute; discriminate))
    as [_ Q].
  split; [|split].
  - destruct (N Example.removals ltac:(vm_compute; discriminate)
                ltac:(repeat constructor; vm_compute; discriminate))
      as (st' & E & Cur & _ & In).
    exists st'. split; [exact E|]. split; [exact Cur|].
    destruct (In 0%nat _ eq_refl) as (K0 & _ & _).
    destruct (In 1%nat _ eq_refl) as (K1 & R1 & _).
    repeat split; assumption.
  - specialize (P 4 (Example.row x03) 0 eq_refl eq_refl).
    set (a := allocate _ _ _ _) in P. vm_compute in a. subst a.
    cbv beta iota in P.
    destruct P as (st' & E & Cur & In & _);
      [vm_compute; discriminate
      | repeat constructor; vm_compute; discriminate |].
    destruct (In 0%nat _ eq_refl) as [K0 R0].
    exists st'. repeat split; assumption.
  - specialize (Q 0 (Example.row x05) 0 eq_refl eq_refl).
    set (a := allocate _ _ _ _) in Q. vm_compute in a. subst a.
    cbv beta iota in Q.
    destruct Q as (st' & E & Cur & _);
      [vm_compute; discriminate | constructor |].
    exists st'. split; assumption.
Defined.

Lemma cursor_and_stores_in_bounds_witness :
  exists s,
    @notify RefLruAllocator Example.removals Example.ready = Ret (tt, s) /\
    eviction_row_id s = 2 /\ 0 <= eviction_row_id s <= 3.
Proof.
  pose proof (@cursor_and_stores_in_bounds RefLruAllocator Example.externals
                Example.some_keys (Example.row x00) (Example.count_of 3)
                Example.junk Example.fresh Example.ready 3 Example.removals
                eq_refl eq_refl ltac:(vm_compute; discriminate)
                Example.removals [] eq_refl) as H.
  destruct (@notify RefLruAllocator Example.removals Example.ready)
    as [[[] s]|f] eqn:E.
  - exists s. destruct H as (C & R & _). repeat split; (exact C || apply R).
  - vm_compute in E. discriminate E.
Defined.

Lemma put_then_get_round_trip_witness :
  exists st'',
    @get RefLruAllocator 4
      (Example.exec (@put RefLruAllocator Example.externals 4 (Example.row x03))
         Example.full)
    = Ret (Some [x03; x03; x03; x03], st'').
Proof.
  apply (@put_then_get_round_trip RefLruAllocator Example.externals RefLru_laws
           Example.full _ 4 (Example.row x03)).
  - vm_compute. reflexivity.
  - reflexivity.
Defined.

Lemma cache_usage_reports_free_and_capacity_witness :
  @get_cache_usage RefLruAllocator Example.full = Ret ([8; 16], Example.full).
Proof.
  apply (@cache_usage_reports_free_and_capacity
           RefLruAllocator Example.externals 16 2 Example.fresh Example.full
           [ResetEvictionStates;
            InitTensor Example.some_keys (Example.row x00) (Example.count_of 3)
              Example.junk;
            Put 0 (Example.row x01); Put 2 (Example.row x02)]).
  - vm_compute. reflexivity.
  - vm_compute. reflexivity.
  - unfold INT64_MAX. lia.
  - intros p [<-|[<-|[]]]; vm_compute; discriminate.
  - vm_compute. discriminate.
Defined.

Lemma init_tensor_binds_fresh_buffers_witness :
  exists st' keys rows,
    @init_tensor_for_l2_eviction RefLruAllocator Example.externals
      Example.some_keys (Example.row x00) (Example.count_of 3) Example.junk
      Example.fresh = Ret (tt, st') /\
    get_evicted_indices_and_weights st' = Ret (Some (keys, rows), st') /\
    sizes keys = [3] /\ int64_at keys 2 = Some (-1) /\ sizes rows = [3; 4].
Proof.
  destruct (@init_tensor_binds_fresh_buffers RefLruAllocator Example.externals
              Example.some_keys (Example.row x00) (Example.count_of 3)
              Example.junk Example.fresh 3 4 eq_refl ltac:(lia) eq_refl
              ltac:(lia))
    as (st' & keys & rows & I & G & _ & Sk & _ & Sent & _ & Sr & _).
  exists st', keys, rows. repeat split; try assumption.
  apply Sent; [reflexivity|lia].
Defined.

Lemma shard_routing_is_stable_witness :
  @get_shard_id RefLruAllocator Example.externals 2 Example.full
  = Ret (0, Example.full) /\
  exists s',
    @put RefLruAllocator Example.externals 5 (Example.row x03) Example.full
    = Ret (true, s') /\
    peek (StringPiece 5) (cache_ s')
    = Some (row_entry 5 1 (Example.row x03)).
Proof.
  split.
  - apply (proj1 (proj2 (proj2
             (@shard_routing_is_stable RefLruAllocator Example.externals
                RefLru_laws Example.fresh Example.fresh 2 0 eq_refl)))
             Example.filling).
    vm_compute. reflexivity.
  - destruct (@shard_routing_is_stable RefLruAllocator Example.externals
                RefLru_laws Example.full Example.full 5 1
                ltac:(vm_compute; reflexivity))
      as (_ & _ & _ & pid & Nth & _ & P).
    vm_compute in Nth. injection Nth as <-.
    specialize (P (Example.row x03) eq_refl). vm_compute in P.
    destruct P as (P1 & _ & P3).
    eexists. split; [exact P1|exact P3].
Defined.



(* ================================================================== *)
(** ** Further properties of the methods *)

Section MoreProperties.

Context {L : LruAllocator} {X : Externals}.

(** *** Encoding of keys *)

(** The memory image of a 64-bit key has eight bytes, reads back as the
    key, and is different for different keys: [get] and [put] address an
    entry by its key alone, and the callback recovers the key it was put
    under. *)
Theorem key_bytes_round_trip (k1 k2 : Z) :
  INT64_MIN <= k1 <= INT64_MAX ->
  INT64_MIN <= k2 <= INT64_MAX ->
  length (StringPiece k1) = 8%nat /\
  read_int64 (StringPiece k1) = Some k1 /\
  (StringPiece k1 = StringPiece k2 -> k1 = k2).
Proof.
  intros R1 R2. split; [apply length_le_bytes|].
  split; [now apply read_int64_StringPiece|].
  intros E. apply (f_equal read_int64) in E.
  rewrite !read_int64_StringPiece in E by assumption. congruence.
Qed.

(** *** More and wider rows than the buffers take *)

(** The callback has no check of the cursor against the length of the
    buffers: a sequence of removals with more evictions than rows are left
    ends in a store outside the key buffer. *)
Theorem too_many_evictions_store_out_of_bounds
        (m w esz : Z) (evs : list RemoveCbData) :
  forall st,
    buffers_bound m w st -> capture_types esz st ->
    0 <= eviction_row_id st <= m ->
    m < eviction_row_id st + Z.of_nat (length (evictions evs)) ->
    Forall (row_item w esz) (evictions evs) ->
    notify evs st = Fault OutOfBoundsWrite.
Proof.
  induction evs as [|d evs IH]; intros st B T R Over Rows.
  - cbn [evictions filter map length Z.of_nat] in Over. lia.
  - cbn [notify]. rewrite evictions_cons in Over, Rows.
    destruct (context d) eqn:C.
    + cbn [length] in Over. rewrite Nat2Z.inj_succ in Over.
      apply Forall_cons_iff in Rows as [Row Rows].
      destruct (Z.eq_dec (eviction_row_id st) m) as [Full|Room].
      * apply bind_fault.
        unfold buffers_bound, capture_types in B, T.
        destruct (evicted_indices_ptr_ st) as [ti|] eqn:Ei; [|contradiction].
        destruct (evicted_weights_ptr_ st) as [tw|] eqn:Ew; [|contradiction].
        destruct B as (_ & Li & Sw & _). destruct T as [Ti Tw].
        rewrite (eviction_cb_unfold _ _ _ _ Ei Ew), Tw, C.
        rewrite (data_ptr_int64_Long _ Ti). unfold size. rewrite Sw.
        cbn [nth_error of_option].
        destruct Row as [K _]. destruct (read_int64_some _ K) as [key ->].
        destruct (write_at _ _ _) as [si|] eqn:W; [|reflexivity].
        apply write_at_Some in W as (_ & W & _).
        rewrite length_le_bytes, Li, Ti in W. cbn [elementSize] in W. lia.
      * destruct (eviction_cb_capture m w esz st d B T C ltac:(lia) Row)
          as (s1 & E1 & Cur1 & B1 & T1 & _).
        rewrite (bind_step _ _ _ _ _ E1). apply IH; try assumption; lia.
    + rewrite (bind_step _ _ _ _ _ (eviction_cb_normal m w esz st d B T C)).
      apply IH; assumption.
Qed.

(** The callback copies one row width from the evicted item, whatever the
    size of the item is: of a longer item the row buffer receives the first
    row width only, and a shorter item is read beyond its end. *)
Theorem capture_copies_one_row_width
        (m w esz : Z) (st : CacheLibCache) (data : RemoveCbData) :
  buffers_bound m w st -> capture_types esz st ->
  context data = kEviction ->
  0 <= eviction_row_id st < m ->
  (8 <= length (getKey (item data)))%nat ->
  (w * esz <= Z.of_nat (length (getMemory (item data))) ->
   exists st',
     eviction_cb data st = Ret (tt, st') /\
     captured_row st' (eviction_row_id st)
     = Some (firstn (Z.to_nat (w * esz)) (getMemory (item data)))) /\
  (Z.of_nat (length (getMemory (item data))) < w * esz ->
   eviction_cb data st = Fault OutOfBoundsRead).
Proof.
  unfold buffers_bound, capture_types, captured_row. intros B T C R K.
  destruct (evicted_indices_ptr_ st) as [indices|] eqn:Ei; [|contradiction].
  destruct (evicted_weights_ptr_ st) as [weights|] eqn:Ew; [|contradiction].
  destruct B as (Si & Li & Sw & Lw & Rm & Rw). destruct T as [Ti Tw].
  destruct (dispatch_size _ _ Tw) as [Esz Pos].
  rewrite (eviction_cb_unfold _ _ _ _ Ei Ew), Tw, C.
  rewrite (data_ptr_int64_Long _ Ti). unfold size. rewrite Sw.
  cbn [nth_error of_option].
  assert (Ek : exists key, read_int64 (getKey (item data)) = Some key).
  { unfold read_int64. destruct (_ <? _)%nat eqn:E; [|eauto].
    apply Nat.ltb_lt in E. lia. }
  destruct Ek as [key ->].
  rewrite Ti in Li. cbn [elementSize] in Li.
  set (r := eviction_row_id st) in *.
  destruct (write_at_in_bounds (8 * r) (le_bytes 8 key) (storage indices))
    as [si ->]; [lia | rewrite length_le_bytes; lia |].
  split.
  - intros Long.
    assert (Rd : read_at 0 (w * esz) (getMemory (item data))
                 = Some (firstn (Z.to_nat (w * esz)) (getMemory (item data)))).
    { apply read_at_Some. repeat split; lia. }
    rewrite Rd. pose proof (read_at_length _ _ _ _ Rd) as Lr.
    destruct (write_at_in_bounds (r * w * esz)
                (firstn (Z.to_nat (w * esz)) (getMemory (item data)))
                (storage weights)) as [sw Ww];
      [nia | rewrite Lw, Lr, <- Esz; nia |].
    rewrite Ww. eexists. split; [reflexivity|].
    cbn [captured_state evicted_weights_ptr_ with_storage sizes].
    rewrite Sw. unfold row_at, with_storage. cbn [storage scalar_type].
    pose proof (read_at_write_at_same _ _ _ _ Ww) as Rs.
    rewrite Lr in Rs. rewrite <- Esz.
    replace (r * (w * esz)) with (r * w * esz) by ring. exact Rs.
  - intros Short.
    destruct (read_at 0 (w * esz) (getMemory (item data))) as [row|] eqn:Rd;
      [|reflexivity].
    apply read_at_Some in Rd as (_ & _ & Rd & _). lia.
Qed.

(** *** Resetting and draining *)

(** [reset_eviction_states] rewinds the cursor and nothing else: the
    buffers keep what the cycle before has left in them, a second reset
    changes nothing more, and the next eviction overwrites slot 0 alone, so
    that every other slot still shows the cycle before. *)
Theorem reset_keeps_the_captured_rows
        (m w esz : Z) (st : CacheLibCache) (data : RemoveCbData) :
  buffers_bound m w st -> capture_types esz st ->
  0 < m ->
  context data = kEviction -> row_item w esz (item data) ->
  exists s1 s2,
    reset_eviction_states st = Ret (tt, s1) /\
    reset_eviction_states s1 = Ret (tt, s1) /\
    eviction_row_id s1 = 0 /\
    (forall j, captured_key s1 j = captured_key st j /\
               captured_row s1 j = captured_row st j) /\
    eviction_cb data s1 = Ret (tt, s2) /\
    eviction_row_id s2 = 1 /\
    captured_key s2 0 = read_int64 (getKey (item data)) /\
    captured_row s2 0 = Some (getMemory (item data)) /\
    (forall j, j <> 0 -> captured_key s2 j = captured_key st j /\
                         captured_row s2 j = captured_row st j).
Proof.
  intros B T Pm C Row.
  destruct (eviction_cb_capture m w esz (with_row_id 0 st) data B T C
              ltac:(cbn; lia) Row)
    as (s2 & E & Cur & _ & _ & _ & _ & _ & K & W & O).
  exists (with_row_id 0 st), s2.
  repeat split; try assumption; try reflexivity; apply O; assumption.
Qed.

(** A whole cycle, drained: after [reset_eviction_states] and
    [init_tensor_for_l2_eviction] for [m] lookups with keys of 64-bit
    integers, and removals with at most [m] evictions of one row each,
    [get_evicted_indices_and_weights] returns the two buffers, in which
    slot [i] holds the key and the bytes of eviction [i], and every slot
    of the key buffer from the number of evictions on still reads [-1]. *)
Theorem drained_buffers_hold_the_evictions
        (indices weights count : Tensor) (junk : nat -> byte)
        (st st0 : CacheLibCache) (m w esz : Z) (evs : list RemoveCbData) :
  (reset_eviction_states ;;;
   init_tensor_for_l2_eviction indices weights count junk) st
  = Ret (tt, st0) ->
  item_long count = Ret m -> size weights 1 = Ret w ->
  scalar_type indices = kLong ->
  dispatch_float_half_and_byte (scalar_type weights) = Ret esz ->
  Z.of_nat (length (evictions evs)) <= m ->
  Forall (row_item w esz) (evictions evs) ->
  exists st' keys rows,
    (notify evs ;;; get_evicted_indices_and_weights) st0
    = Ret (Some (keys, rows), st') /\
    sizes keys = [m] /\ sizes rows = [m; w] /\
    (forall i it,
        nth_error (evictions evs) i = Some it ->
        int64_at keys (Z.of_nat i) = read_int64 (getKey it) /\
        row_at rows w (Z.of_nat i) = Some (getMemory it)) /\
    (forall j,
        Z.of_nat (length (evictions evs)) <= j < m ->
        int64_at keys j = Some (-1)).
Proof.
  intros Init Em Ew Long Disp Len Rows.
  unfold reset_eviction_states, modify in Init.
  rewrite (bind_step _ _ _ tt (with_row_id 0 st) eq_refl) in Init.
  destruct (init_tensor_bound _ _ _ _ _ _ _ Init)
    as (m' & w' & Em' & Ew' & B & Cur & _).
  assert (m' = m) by congruence. assert (w' = w) by congruence. subst m' w'.
  destruct (init_tensor_ready _ _ _ _ _ _ _ _ _ Init Em Long Disp) as [T Sent].
  cbn [with_row_id eviction_row_id] in Cur.
  destruct (notify_capture m w esz evs st0 B T ltac:(lia) ltac:(lia) Rows)
    as (st' & E & Cur' & B' & _ & _ & _ & _ & In & Out).
  unfold buffers_bound in B'. unfold captured_key, captured_row in In, Out.
  destruct (evicted_indices_ptr_ st') as [keys|] eqn:Ei; [|contradiction].
  destruct (evicted_weights_ptr_ st') as [rows|] eqn:Ewt; [|contradiction].
  destruct B' as (Sk & _ & Sr & _). rewrite Sr in In.
  exists st', keys, rows. split.
  { rewrite (bind_step _ _ _ _ _ E).
    unfold get_evicted_indices_and_weights, bind, gets, ret.
    now rewrite Ei, Ewt. }
  split; [assumption|]. split; [assumption|]. split.
  - intros i it Hi. specialize (In i it Hi). now rewrite Cur in In.
  - intros j Rj. destruct (Out j ltac:(lia)) as [-> _].
    unfold captured_key in Sent. apply Sent. lia.
Qed.

(** *** Construction and routing *)

Lemma add_pools_length range num_shards :
  forall acc r,
    add_pools range num_shards acc = Ret r ->
    length (snd r) = (length (snd acc) + length range)%nat.
Proof.
  induction range as [|i range IH]; intros acc r; cbn [add_pools].
  - intros [= <-]. cbn [length]. lia.
  - destruct (addPool _ _ _) as [[pid c]|f]; [|discriminate]. cbn [obind].
    intros H%IH. rewrite H. cbn [snd fst length]. rewrite length_app.
    cbn [length]. lia.
Qed.



Lemma new_CacheLibCache_fields size num_shards st :
  new_CacheLibCache size num_shards = Ret st ->
  num_shards <= INT_MAX /\
  Z.of_nat (length (pool_ids_ st)) = Z.max 0 num_shards /\
  cache_config_ st = {| cacheSizeBytes := to_uint64 size |}.
Proof.
  unfold new_CacheLibCache.
  destruct (initializeCacheLib _) as [cache|f]; [|discriminate]. cbn [obind].
  destruct (add_pools _ _ _) as [r|f] eqn:A; [|discriminate]. cbn [obind].
  destruct (INT_MAX <? num_shards) eqn:O; [discriminate|]. intros [= <-].
  apply add_pools_length in A.
  cbn [pool_ids_ cache_config_ snd] in *.
  rewrite length_map, length_seq in A. cbn [length] in A. unbool.
  repeat split; try assumption. rewrite A. unfold INT_MAX in *. lia.
Qed.


(** On a cache constructed with at least one shard, after any calls, every
    key has a shard and its pool is one of the pools of the cache.  On a
    cache constructed with no shard, the shard of a key is a remainder
    modulo 0: every [put] faults. *)
Theorem every_key_routes_to_a_pool
        (size num_shards : Z) (st0 st : CacheLibCache) (cs : list call)
        (key : Z) :
  new_CacheLibCache size num_shards = Ret st0 ->
  run cs st0 = Ret (tt, st) ->
  (1 <= num_shards ->
   exists i pid,
     get_shard_id key st = Ret (i, st) /\
     get_pool_id key st = Ret (pid, st) /\
     In pid (pool_ids_ st)) /\
  (num_shards <= 0 ->
   forall data, exists f, put key data st = Fault f).
Proof.
  intros (_ & Len & _)%new_CacheLibCache_fields (Hp & _)%run_frame.
  rewrite <- Hp in Len. split.
  - intros Pos.
    assert (Ne : pool_ids_ st <> []).
    { intros E. rewrite E in Len. cbn [length] in Len. lia. }
    assert (Es : get_shard_id key st
                 = Ret (to_uint64 (key_hash key)
                          mod Z.of_nat (length (pool_ids_ st)), st)).
    { apply get_shard_id_Ret. auto. }
    destruct (get_shard_id_has_pool _ _ _ Es) as (pid & En & Ep).
    eexists _, pid. split; [exact Es|]. split; [exact Ep|].
    eapply nth_error_In. exact En.
  - intros Le data.
    assert (E : pool_ids_ st = []).
    { destruct (pool_ids_ st); [reflexivity|]. cbn [length] in Len. lia. }
    exists DivisionByZero. unfold put. apply bind_fault.
    unfold get_pool_id. apply bind_fault.
    unfold get_shard_id, bind, gets, lift, hash_shard. now rewrite E.
Qed.

(** *** Binding of the buffers over the life of the object *)

Lemma eviction_cb_unbound_keys data st u st' :
  eviction_cb data st = Ret (u, st') ->
  evicted_indices_ptr_ st = None ->
  st' = st.
Proof.
  intros H Ei. revert H.
  destruct (evicted_weights_ptr_ st) as [weights|] eqn:Ew.
  2:{ now rewrite (eviction_cb_null _ _ Ew). }
  unfold eviction_cb, bind, deref, lift. rewrite Ew.
  destruct (dispatch_float_half_and_byte _); [|discriminate].
  destruct (context data).
  - rewrite Ei. discriminate.
  - now intros [= <-].
Qed.

Lemma notify_unbound_keys evs :
  forall st u st',
    notify evs st = Ret (u, st') ->
    evicted_indices_ptr_ st = None ->
    st' = st.
Proof.
  induction evs as [|d evs IH]; intros st u st'; cbn [notify].
  - now intros [= _ <-].
  - intros (u1 & s1 & E & N)%bind_Ret Ei.
    apply eviction_cb_unbound_keys in E; [|exact Ei]. subst s1. eauto.
Qed.

Lemma perform_keeps_unbound c st u st' :
  perform c st = Ret (u, st') ->
  binds_buffers [c] = false ->
  evicted_indices_ptr_ st = None ->
  evicted_indices_ptr_ st' = None.
Proof.
  destruct c as [key|key data|indices weights count junk| | |];
    cbn [perform binds_buffers existsb orb]; try discriminate.
  - intros (r & s & (-> & _)%get_Ret & [= _ <-])%bind_Ret _ Ni. auto.
  - intros (r & s & P & [= _ <-])%bind_Ret _ Ni.
    apply put_Ret in P
        as (pid & _ & (a & evs & c & s1 & _ & N & H)%put_in_pool_Ret).
    apply notify_unbound_keys in N; [|exact Ni]. subst s1.
    destruct a as [it|].
    + destruct H as (mem & evs' & c' & _ & _ & N' & _).
      apply notify_unbound_keys in N'; [|exact Ni]. subst s. exact Ni.
    + destruct H as [_ ->]. exact Ni.
  - intros [= _ <-] _ Ni. exact Ni.
  - intros (r & s & H & [= _ <-])%bind_Ret _ Ni.
    unfold get_evicted_indices_and_weights, bind, gets, ret in H.
    rewrite Ni in H. now injection H as _ <-.
  - intros (r & s & [= _ <-] & [= _ <-])%bind_Ret _ Ni. exact Ni.
Qed.

Lemma run_keeps_unbound cs :
  forall st u st',
    run cs st = Ret (u, st') ->
    binds_buffers cs = false ->
    evicted_indices_ptr_ st = None ->
    evicted_indices_ptr_ st' = None.
Proof.
  induction cs as [|c cs IH]; intros st u st'.
  - now intros [= _ <-].
  - cbn [run]. unfold binds_buffers. cbn [existsb].
    intros R [Bc Bcs]%orb_false_elim Ni.
    destruct (perform c st) as [[u1 s1]|f] eqn:P.
    + apply (IH _ _ _ R Bcs).
      apply (perform_keeps_unbound _ _ _ _ P); [|exact Ni].
      unfold binds_buffers. cbn [existsb]. now rewrite Bc.
    + destruct c; cbn [caught] in R; discriminate.
Qed.

Lemma size_out_of_range (t : Tensor) (d : nat) :
  (length (sizes t) <= d)%nat ->
  exists what, size t d = Fault (Thrown what).
Proof.
  intros Le. unfold size. apply nth_error_None in Le. rewrite Le.
  cbn. eauto.
Qed.

(** What [get_evicted_indices_and_weights] returns tells which buffers are
    bound, not whether anything was evicted.  After a call of
    [init_tensor_for_l2_eviction] that has returned, and any calls after
    it, it returns a pair of buffers and changes nothing.  On an object
    whose key buffer is not bound, after calls other than
    [init_tensor_for_l2_eviction], it returns nothing.  And where
    [init_tensor_for_l2_eviction] is given weights of fewer than two
    dimensions on an object whose weights buffer is not bound, it throws
    after it has bound the key buffer: the caller that catches the
    exception holds an object on which the assertion of
    [get_evicted_indices_and_weights] fails. *)
Theorem get_evicted_reports_binding (st : CacheLibCache) :
  (forall indices weights count junk st1 cs st2,
      init_tensor_for_l2_eviction indices weights count junk st
      = Ret (tt, st1) ->
      run cs st1 = Ret (tt, st2) ->
      exists keys rows,
        evicted_indices_ptr_ st2 = Some keys /\
        evicted_weights_ptr_ st2 = Some rows /\
        get_evicted_indices_and_weights st2 = Ret (Some (keys, rows), st2)) /\
  (forall cs st',
      evicted_indices_ptr_ st = None ->
      binds_buffers cs = false ->
      run cs st = Ret (tt, st') ->
      get_evicted_indices_and_weights st' = Ret (None, st')) /\
  (forall indices weights count junk n keys,
      evicted_weights_ptr_ st = None ->
      item_long count = Ret n ->
      ones_times_neg_one n (scalar_type indices) = Ret keys ->
      (length (sizes weights) < 2)%nat ->
      (exists what,
          init_tensor_for_l2_eviction indices weights count junk st
          = Fault (Thrown what)) /\
      caught (InitTensor indices weights count junk) st
      = Some (with_indices (Some keys) st) /\
      get_evicted_indices_and_weights (with_indices (Some keys) st)
      = Fault AssertFailed /\
      forall cs,
        run (InitTensor indices weights count junk :: GetEvicted :: cs) st
        = Fault AssertFailed).
Proof.
  split; [|split].
  - intros indices weights count junk st1 cs st2 I R.
    apply init_tensor_bound in I as (m & w & _ & _ & B & _).
    unfold buffers_bound in B.
    apply run_frame in R as (_ & _ & Ri & Rw).
    destruct (evicted_indices_ptr_ st1); [|contradiction].
    destruct (evicted_weights_ptr_ st1); [|contradiction].
    unfold get_evicted_indices_and_weights, bind, gets, ret, lift.
    destruct (evicted_indices_ptr_ st2) as [keys|]; [|now destruct Ri].
    destruct (evicted_weights_ptr_ st2) as [rows|]; [|now destruct Rw].
    eauto.
  - intros cs st' Ni Bc R.
    pose proof (run_keeps_unbound _ _ _ _ R Bc Ni) as N.
    unfold get_evicted_indices_and_weights, bind, gets, ret. now rewrite N.
  - intros indices weights count junk n keys Nw Ec Eo Dim.
    destruct (size_out_of_range weights 1 ltac:(lia)) as [what Es].
    assert (C : caught (InitTensor indices weights count junk) st
                = Some (with_indices (Some keys) st)).
    { cbn [caught]. unfold init_tensor_for_l2_eviction_thrown.
      rewrite Ec, Eo, Es. reflexivity. }
    assert (G : get_evicted_indices_and_weights (with_indices (Some keys) st)
                = Fault AssertFailed).
    { unfold get_evicted_indices_and_weights, bind, gets, ret, lift.
      cbn [with_indices evicted_indices_ptr_ evicted_weights_ptr_].
      now rewrite Nw. }
    destruct (caught_frame _ _ _ C) as ((what' & P) & _).
    split; [exists what'; exact P|]. split; [exact C|]. split; [exact G|].
    intros cs. cbn [run]. rewrite P, C. cbn [perform].
    unfold bind at 1. now rewrite G.
Qed.

(** *** Reading, and what an eviction captures of a [put] *)

Context {LL : LruAllocatorLaws L}.

(** [get] always returns: the bytes stored under the key, or nothing when
    there is no entry for it.  It changes no entry, so a second [get]
    returns the same; and it never runs the callback: the cursor, the
    buffers and the pools are as before. *)
Theorem get_reads_and_changes_nothing (st : CacheLibCache) (key : Z) :
  exists st',
    get key st
    = Ret (option_map getMemory (peek (StringPiece key) (cache_ st)), st') /\
    (forall k, peek k (cache_ st') = peek k (cache_ st)) /\
    (exists st'',
        get key st'
        = Ret (option_map getMemory (peek (StringPiece key) (cache_ st)), st'')) /\
    pool_ids_ st' = pool_ids_ st /\
    eviction_row_id st' = eviction_row_id st /\
    evicted_indices_ptr_ st' = evicted_indices_ptr_ st /\
    evicted_weights_ptr_ st' = evicted_weights_ptr_ st.
Proof.
  exists (with_cache (snd (find (StringPiece key) (cache_ st))) st).
  split; [apply get_Ret; now rewrite find_peek|].
  split; [intros k; apply find_keeps|].
  split; [|repeat split].
  eexists. apply get_Ret. split; [reflexivity|].
  cbn [with_cache cache_]. now rewrite find_peek, find_keeps.
Qed.

(** The entry that a successful [put] leaves under its key is captured,
    when it is evicted later, as that key and the bytes of the row that was
    put, provided the row has the width of the buffers. *)
Theorem evicted_put_entry_is_captured
        (m w esz : Z) (st st1 s : CacheLibCache) (key : Z) (data : Tensor) :
  put key data st = Ret (true, st1) ->
  tensor_ok data = true ->
  INT64_MIN <= key <= INT64_MAX ->
  nbytes data = w * esz ->
  exists it,
    peek (StringPiece key) (cache_ st1) = Some it /\
    (buffers_bound m w s -> capture_types esz s ->
     0 <= eviction_row_id s < m ->
     exists s',
       eviction_cb {| context := kEviction; item := it |} s = Ret (tt, s') /\
       eviction_row_id s' = eviction_row_id s + 1 /\
       captured_key s' (eviction_row_id s) = Some key /\
       captured_row s' (eviction_row_id s) = Some (storage data)).
Proof.
  intros (pid & _ & (r & evs & c & s1 & A & _ & H)%put_in_pool_Ret)%put_Ret
         Ok Rk Width.
  destruct r as [it|]; [|now destruct H].
  destruct H as (mem & evs' & c' & Mc & Ins & N & _).
  destruct (allocate_some _ _ _ _ _ _ _ A) as (Hk & _ & Hn & _).
  assert (Mc' : memcpy (getMemory it) (storage data) (nbytes data)
                = Ret (storage data)).
  { rewrite <- (tensor_ok_nbytes _ Ok). apply memcpy_whole.
    apply Nat2Z.inj. rewrite Hn. symmetry. now apply tensor_ok_nbytes. }
  rewrite Mc' in Mc. injection Mc as <-.
  apply notify_frame in N as ((Nc & _) & _). cbn [with_cache cache_] in Nc.
  pose proof (insert_peek {| getKey := getKey it; getPoolId := getPoolId it;
                             getMemory := storage data |} (cache_ s1)) as Pk.
  rewrite Ins in Pk. cbn [snd getKey] in Pk. rewrite Hk in Pk.
  eexists. split; [rewrite Nc; exact Pk|].
  intros B T R.
  destruct (eviction_cb_capture m w esz s
              {| context := kEviction;
                 item := {| getKey := getKey it; getPoolId := getPoolId it;
                            getMemory := storage data |} |} B T eq_refl R)
    as (s' & E & Cur & _ & _ & _ & _ & _ & K & W & _).
  { split; cbn [item getKey getMemory].
    - rewrite Hk. apply length_le_bytes.
    - rewrite (tensor_ok_nbytes _ Ok). exact Width. }
  exists s'. cbn [item getKey getMemory] in K, W.
  rewrite Hk, read_int64_StringPiece in K by assumption. rewrite Hk in E.
  repeat split; assumption.
Qed.

End MoreProperties.

(* ================================================================== *)
(** ** The further properties at work on the reference allocator *)

Lemma key_bytes_round_trip_witness :
  read_int64 (StringPiece (-1)) = Some (-1) /\
  (StringPiece (-1) = StringPiece 255 -> -1 = 255).
Proof.
  apply (key_bytes_round_trip (-1) 255); vm_compute; split; discriminate.
Defined.

Lemma too_many_evictions_store_out_of_bounds_witness :
  @notify RefLruAllocator Example.flood Example.ready = Fault OutOfBoundsWrite.
Proof.
  apply (@too_many_evictions_store_out_of_bounds RefLruAllocator 3 4 1
           Example.flood Example.ready ready_is_bound ready_has_types).
  - vm_compute. split; discriminate.
  - vm_compute. reflexivity.
  - repeat constructor.
Defined.

Lemma capture_copies_one_row_width_witness :
  (exists st',
      eviction_cb {| context := kEviction; item := Example.long_entry |}
        Example.ready = Ret (tt, st') /\
      captured_row st' 0 = Some [x01; x02; x03; x04]) /\
  eviction_cb {| context := kEviction; item := Example.short_entry |}
    Example.ready = Fault OutOfBoundsRead.
Proof.
  split.
  - apply (proj1 (@capture_copies_one_row_width RefLruAllocator 3 4 1
                    Example.ready
                    {| context := kEviction; item := Example.long_entry |}
                    ready_is_bound ready_has_types eq_refl
                    ltac:(vm_compute; split; [discriminate|reflexivity])
                    ltac:(vm_compute; repeat constructor))).
    vm_compute. discriminate.
  - apply (proj2 (@capture_copies_one_row_width RefLruAllocator 3 4 1
                    Example.ready
                    {| context := kEviction; item := Example.short_entry |}
                    ready_is_bound ready_has_types eq_refl
                    ltac:(vm_compute; split; [discriminate|reflexivity])
                    ltac:(vm_compute; repeat constructor))).
    vm_compute. reflexivity.
Defined.

Lemma used_is_bound : @buffers_bound RefLruAllocator 3 4 Example.used.
Proof. vm_compute. repeat split; try reflexivity; discriminate. Qed.

Lemma used_has_types : @capture_types RefLruAllocator 1 Example.used.
Proof. vm_compute. split; reflexivity. Qed.

Lemma reset_keeps_the_captured_rows_witness :
  exists s1 s2,
    reset_eviction_states Example.used = Ret (tt, s1) /\
    eviction_cb {| context := kEviction; item := Example.entry 11 x04 |} s1
    = Ret (tt, s2) /\
    captured_key s2 0 = Some 11 /\ captured_key s2 1 = Some 9.
Proof.
  destruct (@reset_keeps_the_captured_rows RefLruAllocator 3 4 1 Example.used
              {| context := kEviction; item := Example.entry 11 x04 |}
              used_is_bound used_has_types ltac:(lia) eq_refl
              ltac:(split; reflexivity))
    as (s1 & s2 & R1 & _ & _ & _ & E & _ & K0 & _ & O).
  exists s1, s2. repeat split; try assumption.
  destruct (O 1 ltac:(lia)) as [-> _]. reflexivity.
Defined.

Lemma drained_buffers_hold_the_evictions_witness :
  exists st' keys rows,
    (notify Example.removals ;;; get_evicted_indices_and_weights) Example.ready
    = Ret (Some (keys, rows), st') /\
    int64_at keys 0 = Some 7 /\ int64_at keys 1 = Some 9 /\
    int64_at keys 2 = Some (-1) /\
    row_at rows 4 1 = Some [x03; x03; x03; x03].
Proof.
  destruct (@drained_buffers_hold_the_evictions RefLruAllocator
              Example.externals
              Example.some_keys (Example.row x00) (Example.count_of 3)
              Example.junk Example.fresh Example.ready 3 4 1 Example.removals
              eq_refl eq_refl eq_refl eq_refl eq_refl
              ltac:(vm_compute; discriminate) ltac:(repeat constructor))
    as (st' & keys & rows & E & _ & _ & In & Sent).
  exists st', keys, rows. split; [exact E|].
  destruct (In 0%nat _ eq_refl) as [K0 _].
  destruct (In 1%nat _ eq_refl) as [K1 R1].
  repeat split; try assumption.
  apply Sent. vm_compute. split; [discriminate|reflexivity].
Defined.


Lemma every_key_routes_to_a_pool_witness :
  exists i pid,
    @get_shard_id RefLruAllocator Example.externals 5 Example.full
    = Ret (i, Example.full) /\
    @get_pool_id RefLruAllocator Example.externals 5 Example.full
    = Ret (pid, Example.full) /\
    In pid (pool_ids_ Example.full).
Proof.
  apply (proj1 (@every_key_routes_to_a_pool RefLruAllocator Example.externals
                  16 2 Example.fresh Example.full Example.filling 5
                  ltac:(vm_compute; reflexivity)
                  ltac:(vm_compute; reflexivity))).
  lia.
Defined.

Lemma get_evicted_reports_binding_witness :
  (exists keys rows,
      get_evicted_indices_and_weights Example.full
      = Ret (Some (keys, rows), Example.full)) /\
  @get_evicted_indices_and_weights RefLruAllocator
    (Example.exec (@put RefLruAllocator Example.externals 0 (Example.row x01))
       Example.fresh)
  = Ret (None,
         Example.exec (@put RefLruAllocator Example.externals 0 (Example.row x01))
           Example.fresh) /\
  @run RefLruAllocator Example.externals
    [InitTensor Example.some_keys Example.flat_weights (Example.count_of 3)
       Example.junk;
     GetEvicted] Example.fresh
  = Fault AssertFailed.
Proof.
  destruct (@get_evicted_reports_binding RefLruAllocator Example.externals
              Example.fresh) as (A & B & C).
  split; [|split].
  - destruct (A Example.some_keys (Example.row x00) (Example.count_of 3)
                Example.junk _
                [Put 0 (Example.row x01); Put 2 (Example.row x02)]
                Example.full
                ltac:(vm_compute; reflexivity) ltac:(vm_compute; reflexivity))
      as (keys & rows & _ & _ & G).
    exists keys, rows. exact G.
  - apply (B [Put 0 (Example.row x01)] _ eq_refl eq_refl).
    vm_compute. reflexivity.
  - destruct (C Example.some_keys Example.flat_weights (Example.count_of 3)
                Example.junk _ _ eq_refl
                ltac:(vm_compute; reflexivity) ltac:(vm_compute; reflexivity)
                ltac:(vm_compute; lia)) as (_ & _ & _ & R).
    apply R.
Defined.

Lemma get_reads_and_changes_nothing_witness :
  (exists st', @get RefLruAllocator 2 Example.full
               = Ret (Some [x02; x02; x02; x02], st')) /\
  (exists st', @get RefLruAllocator 6 Example.full = Ret (None, st')).
Proof.
  split.
  - destruct (@get_reads_and_changes_nothing RefLruAllocator RefLru_laws
                Example.full 2) as (st' & E & _).
    exists st'. exact E.
  - destruct (@get_reads_and_changes_nothing RefLruAllocator RefLru_laws
                Example.full 6) as (st' & E & _).
    exists st'. exact E.
Defined.

Lemma evicted_put_entry_is_captured_witness :
  exists it s',
    @peek RefLruAllocator (StringPiece 0) (cache_ Example.one) = Some it /\
    eviction_cb {| context := kEviction; item := it |} Example.one
    = Ret (tt, s') /\
    captured_key s' 0 = Some 0 /\
    captured_row s' 0 = Some [x01; x01; x01; x01].
Proof.
  destruct (@evicted_put_entry_is_captured RefLruAllocator Example.externals
              RefLru_laws 3 4 1 Example.ready Example.one Example.one
              0 (Example.row x01)
              ltac:(vm_compute; reflexivity) eq_refl
              ltac:(vm_compute; split; discriminate) eq_refl)
    as (it & Pk & Cap).
  destruct (Cap one_is_bound one_has_types
              ltac:(vm_compute; split; [discriminate|reflexivity]))
    as (s' & E & _ & K & W).
  exists it, s'. repeat split; assumption.
Defined.
